(** * cam-trigger: the command-driven recording controller

    A shallow embedding of [src/apps/camera_trigger/main.c] and the
    properties of its trigger gates, child accounting, option parsing,
    command dispatch and shutdown.

    The program is a single thread of control plus two signal handlers.
    Its inputs are modelled as explicit oracle values: the lines read by
    [getline], the readings of the monotonic clock, the results of [fork]
    and [waitpid], and the points at which a handler runs.  A handler run
    is placed between two iterations of the loop the main thread is in:
    the handlers run on the main thread's own stack, so each run is
    atomic for the main thread, and the lists of events below fix the
    order in which the runs and the iterations follow each other. *)

From Stdlib Require Import ZArith List Bool Lia.
From Stdlib Require Import Ascii String.
From Stdlib Require Import Decimal DecimalString DecimalPos.
Import ListNotations.

Local Open Scope string_scope.
Local Open Scope Z_scope.

(** ** Machine integers

    [int] and [sig_atomic_t] are 32 bits wide, [long] is 64 bits wide
    (LP64, the data model of the 64-bit Raspberry Pi OS the program is
    built for).  Values are kept as [Z]; an operation whose mathematical
    result may leave the type is followed by the wrap-around. *)

Definition wrap (bits : Z) (z : Z) : Z :=
  (z + 2 ^ (bits - 1)) mod 2 ^ bits - 2 ^ (bits - 1).

Definition INT_MIN : Z := - 2 ^ 31.
Definition INT_MAX : Z := 2 ^ 31 - 1.
Definition LONG_MIN : Z := - 2 ^ 63.
Definition LONG_MAX : Z := 2 ^ 63 - 1.

Definition wrap_int (z : Z) : Z := wrap 32 z.
Definition wrap_long (z : Z) : Z := wrap 64 z.

Definition in_int (z : Z) : Prop := INT_MIN <= z <= INT_MAX.
Definition in_long (z : Z) : Prop := LONG_MIN <= z <= LONG_MAX.

(** ** C strings

    A C string is a [string] without the terminating NUL.  [c_str] cuts a
    buffer at its first NUL, which is where every [str*] function stops. *)

Definition NUL : ascii := "000"%char.
Definition TAB : ascii := "009"%char.
Definition LF : ascii := "010"%char.
Definition VT : ascii := "011"%char.
Definition FF : ascii := "012"%char.
Definition CR : ascii := "013"%char.

Definition code (c : ascii) : Z := Z.of_N (N_of_ascii c).

Fixpoint c_str (buf : string) : string :=
  match buf with
  | EmptyString => EmptyString
  | String c rest => if Ascii.eqb c NUL then EmptyString else String c (c_str rest)
  end.

(** [!strcmp(a, b)] *)
Definition strcmp0 (a b : string) : bool := String.eqb a b.

(** [!strncmp(a, b, n)]: the first [n] characters of both agree. *)
Definition strncmp0 (a b : string) (n : nat) : bool :=
  String.eqb (substring 0 n a) (substring 0 n b).

Fixpoint skip_while (p : ascii -> bool) (s : string) : string :=
  match s with
  | EmptyString => EmptyString
  | String c rest => if p c then skip_while p rest else s
  end.

(** The four characters [trim] removes. *)
Definition is_trim_space (c : ascii) : bool :=
  Ascii.eqb c " " || Ascii.eqb c TAB || Ascii.eqb c LF || Ascii.eqb c CR.

(** The second loop of [trim]: [len] walks down from [strlen(s)] while
    [s[len-1]] is white space; the string then ends at [len]. *)
Fixpoint trim_tail (s : string) (len : nat) : string :=
  match len with
  | O => EmptyString
  | S n =>
      match get n s with
      | Some c => if is_trim_space c then trim_tail s n else substring 0 len s
      | None => substring 0 len s
      end
  end.

Definition trim (s : string) : string :=
  let s1 := skip_while is_trim_space s in
  trim_tail s1 (String.length s1).

(** *** [atoi]

    [atoi] is the C library's; glibc defines it as
    [(int) strtol(nptr, NULL, 10)]: white space is skipped, an optional
    sign is read, then the longest run of decimal digits; [strtol]
    saturates at the bounds of [long] and the conversion to [int] keeps
    the low 32 bits.  Without a digit the result is 0. *)

Definition isspace (c : ascii) : bool :=
  Ascii.eqb c " " || Ascii.eqb c TAB || Ascii.eqb c LF
  || Ascii.eqb c VT || Ascii.eqb c FF || Ascii.eqb c CR.

Definition isdigit (c : ascii) : bool :=
  (48 <=? code c) && (code c <=? 57).

Fixpoint strtol_digits (s : string) (acc : Z) : Z :=
  match s with
  | EmptyString => acc
  | String c rest =>
      if isdigit c then strtol_digits rest (acc * 10 + (code c - 48)) else acc
  end.

Definition clamp_long (z : Z) : Z := Z.max LONG_MIN (Z.min LONG_MAX z).

Definition strtol10 (s : string) : Z :=
  let s1 := skip_while isspace s in
  match s1 with
  | String "-" rest => clamp_long (- strtol_digits rest 0)
  | String "+" rest => clamp_long (strtol_digits rest 0)
  | _ => clamp_long (strtol_digits s1 0)
  end.

Definition atoi (s : string) : Z := wrap_int (strtol10 s).

(** [printf]'s [%d]. *)
Definition string_of_Z (z : Z) : string := NilZero.string_of_int (Z.to_int z).

Definition nl : string := String LF EmptyString.

(** ** Config *)

Record app_config_t : Type := mk_config {
  duration_ms : Z;      (* default clip length *)
  out_dir : string;     (* where to write clips *)
  min_gap_ms : Z;       (* ignore triggers within N ms of the previous one *)
  verbose : bool        (* extra logs *)
}.

Definition cfg_default : app_config_t :=
  {| duration_ms := 10000;
     out_dir := "/mnt/ssd/clips";
     min_gap_ms := 500;
     verbose := false |}.

(** ** Globals and the local state of [main]'s loop *)

Record state : Type := mk_state {
  g_stop : Z;
  g_children : Z;              (* number of active recorder children *)
  last_ms_since_start : Z
}.

Definition set_stop (v : Z) (st : state) : state :=
  {| g_stop := v;
     g_children := g_children st;
     last_ms_since_start := last_ms_since_start st |}.

Definition set_children (v : Z) (st : state) : state :=
  {| g_stop := g_stop st;
     g_children := v;
     last_ms_since_start := last_ms_since_start st |}.

Definition set_last (v : Z) (st : state) : state :=
  {| g_stop := g_stop st;
     g_children := g_children st;
     last_ms_since_start := v |}.

(** [last_ms_since_start = -1000000]: allow immediate first trigger. *)
Definition state_init : state :=
  {| g_stop := 0; g_children := 0; last_ms_since_start := -1000000 |}.

(** ** What the program does to the outside *)

Inductive effect : Type :=
| Stderr (text : string)                    (* one write to stderr *)
| Spawn (pid : positive) (argv : list string).
    (* a child running [execvp(argv[0], argv)]; what the child itself
       writes is not among the effects of the parent *)

(** ** Helpers *)

Definition logf (msg : string) : list effect := [Stderr (msg ++ nl)].

Definition vlogf (cond : bool) (msg : string) : list effect :=
  if cond then [Stderr (msg ++ nl)] else [].

(** The file system as [ensure_dir] sees it. *)
Inductive stat_result : Type :=
| StatDir               (* [stat] succeeds on a directory *)
| StatNotDir            (* [stat] succeeds on something else *)
| StatFails.            (* [stat] fails *)

Record filesystem : Type := mk_fs {
  fs_stat : stat_result;
  fs_mkdir_ok : bool;
  fs_strerror : string   (* [strerror(errno)] after a failed [mkdir] *)
}.

Definition ensure_dir (fs : filesystem) : Z :=
  match fs_stat fs with
  | StatDir => 0
  | StatNotDir => -1
  | StatFails => if fs_mkdir_ok fs then 0 else -1
  end.

(** [strerror(errno)] after [ensure_dir]: [ENOTDIR] is set by
    [ensure_dir] itself, any other value by [mkdir]. *)
Definition ensure_dir_strerror (fs : filesystem) : string :=
  match fs_stat fs with
  | StatNotDir => "Not a directory"
  | _ => fs_strerror fs
  end.

(** The parent's view of [fork]: an error (a negative return value, with
    [errno] set), or the pid of the new child.  In the child, where
    [fork] returns 0, [spawn_recorder] never returns. *)
Inductive fork_result : Type :=
| ForkFailed (strerror : string)
| ForkParent (pid : positive).

(** Spawn rpicam-vid to record one clip.  [ts] is the text
    [timestamp_yyyymmdd_hhmmss] writes.  Returns the return value, the
    new [g_children] and the effects. *)
Definition spawn_recorder (duration : Z) (dir : string) (verb : bool)
    (ts : string) (fk : fork_result) (children : Z) : Z * Z * list effect :=
  let filepath := substring 0 511 (dir ++ "/clip-" ++ ts ++ ".mp4") in
  let dur := string_of_Z duration in
  let argv := ["rpicam-vid"; "-n"; "-t"; dur; "-o"; filepath] in
  match fk with
  | ForkFailed err => (-1, children, logf ("ERROR: fork() failed: " ++ err))
  | ForkParent pid =>
      (0, wrap_int (children + 1),
       Spawn pid argv :: vlogf verb ("spawned recorder pid=" ++ string_of_Z (Z.pos pid)))
  end.

Definition on_sigint (st : state) : state := set_stop 1 st.

(** One turn of the loop of [on_sigchld]: one child reaped. *)
Definition reap (st : state) : state :=
  if 0 <? g_children st then set_children (wrap_int (g_children st - 1)) st else st.

(** [on_sigchld], where [waitpid(-1, &status, WNOHANG)] returns a pid
    [reaped] times before it returns 0 or -1. *)
Fixpoint on_sigchld (reaped : nat) (st : state) : state :=
  match reaped with
  | O => st
  | S n => on_sigchld n (reap st)
  end.

Definition usage (prog : string) (cfg : app_config_t) : list effect :=
  [Stderr ("Usage: " ++ prog
           ++ " [--duration ms] [--outdir PATH] [--min-gap ms] [--verbose]" ++ nl ++ nl
           ++ "Commands on STDIN: save [ms] | status | quit" ++ nl ++ nl
           ++ "Defaults:" ++ nl
           ++ "  --duration " ++ string_of_Z (duration_ms cfg) ++ nl
           ++ "  --outdir " ++ out_dir cfg ++ nl
           ++ "  --min-gap " ++ string_of_Z (min_gap_ms cfg) ++ nl ++ nl)].

(** ** [main]: CLI flags *)

Definition set_duration (v : Z) (cfg : app_config_t) : app_config_t :=
  mk_config v (out_dir cfg) (min_gap_ms cfg) (verbose cfg).
Definition set_outdir (v : string) (cfg : app_config_t) : app_config_t :=
  mk_config (duration_ms cfg) v (min_gap_ms cfg) (verbose cfg).
Definition set_min_gap (v : Z) (cfg : app_config_t) : app_config_t :=
  mk_config (duration_ms cfg) (out_dir cfg) v (verbose cfg).
Definition set_verbose (v : bool) (cfg : app_config_t) : app_config_t :=
  mk_config (duration_ms cfg) (out_dir cfg) (min_gap_ms cfg) v.

(** The loop over [argv[1..argc-1]].  [inl cfg]: the loop ran to its end;
    [inr (code, effects)]: [main] returned [code] from inside it. *)
Fixpoint parse_args (prog : string) (args : list string) (cfg : app_config_t)
    : app_config_t + Z * list effect :=
  match args with
  | [] => inl cfg
  | a :: rest =>
      let otherwise :=
        if strcmp0 a "--verbose" then parse_args prog rest (set_verbose true cfg)
        else if strcmp0 a "-h" || strcmp0 a "--help" then inr (0, usage prog cfg)
        else inr (1, Stderr ("Unknown arg: " ++ a ++ nl) :: usage prog cfg) in
      match rest with
      | v :: rest' =>
          if strcmp0 a "--duration" then parse_args prog rest' (set_duration (atoi v) cfg)
          else if strcmp0 a "--outdir" then parse_args prog rest' (set_outdir v cfg)
          else if strcmp0 a "--min-gap" then parse_args prog rest' (set_min_gap (atoi v) cfg)
          else otherwise
      | [] => otherwise
      end
  end.

(** ** [main]: the command loop *)

Record timespec : Type := mk_timespec { tv_sec : Z; tv_nsec : Z }.

(** [(now.tv_sec - prog_start.tv_sec) * 1000L +
     (now.tv_nsec - prog_start.tv_nsec) / 1000000L] in [long] arithmetic;
    [/] truncates toward zero. *)
Definition ms_since_start (prog_start now : timespec) : Z :=
  wrap_long
    (wrap_long (wrap_long (tv_sec now - tv_sec prog_start) * 1000)
     + Z.quot (wrap_long (tv_nsec now - tv_nsec prog_start)) 1000000).

(** What the environment answers during one iteration that reaches the
    calls: the monotonic clock, the wall-clock timestamp text, [fork]. *)
Record reading : Type := mk_reading {
  now : timespec;
  wall : string;
  forked : fork_result
}.

(** The three ways the [save] branch ends: the two [continue]s of the
    gates, and the call of [spawn_recorder] with its duration. *)
Inductive decision : Type :=
| Debounced
| Busy
| Proceed (dur : Z).

(** The branch of the dispatch an iteration takes. *)
Inductive branch : Type :=
| BrEmpty
| BrQuit
| BrStatus
| BrSave (d : decision)
| BrHelp
| BrUnknown.

Definition is_blank (c : ascii) : bool := Ascii.eqb c " " || Ascii.eqb c TAB.

(** [cmd + 4] *)
Definition after4 (cmd : string) : string :=
  substring 4 (String.length cmd - 4)%nat cmd.

(** Lines 188-194: the duration of this [save]. *)
Definition save_duration (cfg : app_config_t) (cmd : string) : Z :=
  let dur := duration_ms cfg in
  let arg := skip_while is_blank (after4 cmd) in
  match arg with
  | EmptyString => dur
  | String _ _ => let tmp := atoi arg in if 0 <? tmp then tmp else dur
  end.

(** Lines 199-208: the debounce test, the update of
    [last_ms_since_start], the test of [g_children]. *)
Definition gates (cfg : app_config_t) (ms : Z) (dur : Z) (st : state)
    : decision * state :=
  if wrap_long (ms - last_ms_since_start st) <? min_gap_ms cfg
  then (Debounced, st)
  else
    let st1 := set_last ms st in
    if 0 <? g_children st1 then (Busy, st1) else (Proceed dur, st1).

Definition do_save (cfg : app_config_t) (prog_start : timespec)
    (cmd : string) (rd : reading) (st : state) : branch * state * list effect :=
  let dur := save_duration cfg cmd in
  let ms := ms_since_start prog_start (now rd) in
  match gates cfg ms dur st with
  | (Debounced, st1) =>
      (BrSave Debounced, st1,
       vlogf (verbose cfg)
         ("debounce: ignored (gap < " ++ string_of_Z (min_gap_ms cfg) ++ " ms)"))
  | (Busy, st1) =>
      (BrSave Busy, st1,
       vlogf (verbose cfg) "ignored: a recording is already running")
  | (Proceed d, st1) =>
      let '(ret, children, eff) :=
        spawn_recorder d (out_dir cfg) (verbose cfg) (wall rd) (forked rd)
          (g_children st1) in
      (BrSave (Proceed d), set_children children st1,
       (eff ++ (if ret =? 0 then [] else logf "ERROR: failed to start recorder"))%list)
  end.

(** The body of the [while]: one line read by [getline]. *)
Definition loop_body (cfg : app_config_t) (prog_start : timespec)
    (line : string) (rd : reading) (st : state) : branch * state * list effect :=
  let cmd := trim (c_str line) in
  match cmd with
  | EmptyString => (BrEmpty, st, [])
  | String _ _ =>
      if strncmp0 cmd "quit" 4 || strncmp0 cmd "exit" 4 then
        (BrQuit, st, logf "Exiting on user command.")
      else if strncmp0 cmd "status" 6 then
        (BrStatus, st,
         logf ("Status: " ++ (if 0 <? g_children st then "recording" else "idle")))
      else if strncmp0 cmd "save" 4 then
        do_save cfg prog_start cmd rd st
      else if strncmp0 cmd "help" 4 || strncmp0 cmd "?" 1 then
        (BrHelp, st, logf "Commands: save [ms], status, quit")
      else
        (BrUnknown, st,
         (logf ("Unknown command: " ++ cmd) ++ logf "Type: save [ms] | status | quit")%list)
  end.

(** What happens while the loop runs: [getline] returns a line, or a
    signal handler runs.  The end of the list is the end of the input. *)
Inductive event : Type :=
| Line (text : string) (rd : reading)
| Sigint
| Sigchld (reaped : nat).

Record run : Type := mk_run {
  taken : list branch;    (* the branch of every iteration, in order *)
  final : state;
  effects : list effect
}.

Definition run_cons (br : branch) (eff : list effect) (r : run) : run :=
  {| taken := br :: taken r; final := final r; effects := (eff ++ effects r)%list |}.

Fixpoint command_loop (cfg : app_config_t) (prog_start : timespec)
    (evs : list event) (st : state) : run :=
  match evs with
  | [] => mk_run [] st []
  | Sigint :: evs' => command_loop cfg prog_start evs' (on_sigint st)
  | Sigchld n :: evs' => command_loop cfg prog_start evs' (on_sigchld n st)
  | Line text rd :: evs' =>
      if g_stop st =? 0 then
        let '(br, st1, eff) := loop_body cfg prog_start text rd st in
        match br with
        | BrQuit => mk_run [br] st1 eff
        | _ => run_cons br eff (command_loop cfg prog_start evs' st1)
        end
      else mk_run [] st []
  end.

(** ** [main]: wait for any child to finish *)

(** What happens while the last loop runs: the blocking [waitpid]
    returns [ret], or a signal handler runs. *)
Inductive wait_event : Type :=
| Waitpid (ret : Z)
| WSigint
| WSigchld (reaped : nat).

Definition wait_step (ev : wait_event) (st : state) : state :=
  match ev with
  | Waitpid ret =>
      if 0 <? ret then set_children (wrap_int (g_children st - 1)) st else st
  | WSigint => on_sigint st
  | WSigchld n => on_sigchld n st
  end.

(** [while (g_children > 0) ...]: [Some st] when the loop is left in
    [st], [None] when the program is still in it after all of [evs]. *)
Fixpoint wait_children (evs : list wait_event) (st : state) : option state :=
  match evs with
  | [] => if 0 <? g_children st then None else Some st
  | ev :: evs' =>
      if 0 <? g_children st then wait_children evs' (wait_step ev st) else Some st
  end.

(** ** [main] *)

Record exit : Type := mk_exit {
  exit_code : Z;
  exit_state : state;
  exit_effects : list effect;
  exit_taken : option (list branch)   (* [None]: the command loop was not entered *)
}.

(** Lines 169-170. *)
Definition banner (cfg : app_config_t) : list effect :=
  (logf "Command-trigger mode. Type 'save', 'status', or 'quit'."
   ++ logf ("Default 'save': " ++ string_of_Z (duration_ms cfg)
            ++ " ms to " ++ out_dir cfg))%list.

Definition main (argv : list string) (fs : filesystem) (prog_start : timespec)
    (evs : list event) (wevs : list wait_event) : option exit :=
  let prog := hd EmptyString argv in
  match parse_args prog (tl argv) cfg_default with
  | inr (code, eff) => Some (mk_exit code state_init eff None)
  | inl cfg =>
      if ensure_dir fs =? 0 then
        let r := command_loop cfg prog_start evs state_init in
        match wait_children wevs (final r) with
        | Some st =>
            Some (mk_exit 0 st (banner cfg ++ effects r)%list (Some (taken r)))
        | None => None
        end
      else
        Some (mk_exit 1 state_init
                (logf ("ERROR: cannot create/access outdir '" ++ out_dir cfg
                       ++ "': " ++ ensure_dir_strerror fs)) None)
  end.

(** ** Vocabulary of the properties *)

(** The trimmed line starts with [save]: the test of line 187. *)
Definition is_save (line : string) : bool :=
  strncmp0 (trim (c_str line)) "save" 4.

Definition branch_of (r : branch * state * list effect) : branch := fst (fst r).
Definition state_of (r : branch * state * list effect) : state := snd (fst r).
Definition effects_of (r : branch * state * list effect) : list effect := snd r.

(** The states the program passes through: the initial one, and from
    there one run of a handler ([on_sigchld] one turn of its loop at a
    time), one iteration of the command loop, or one iteration of the
    final wait loop. *)
Inductive reachable (cfg : app_config_t) (prog_start : timespec) : state -> Prop :=
| reach_init : reachable cfg prog_start state_init
| reach_sigint st :
    reachable cfg prog_start st -> reachable cfg prog_start (on_sigint st)
| reach_reap st :
    reachable cfg prog_start st -> reachable cfg prog_start (reap st)
| reach_body st line rd :
    reachable cfg prog_start st ->
    reachable cfg prog_start (state_of (loop_body cfg prog_start line rd st))
| reach_wait st ret :
    reachable cfg prog_start st -> 0 < g_children st ->
    reachable cfg prog_start (wait_step (Waitpid ret) st).

(** The state the wait loop is in after [evs]. *)
Fixpoint wait_run (evs : list wait_event) (st : state) : state :=
  match evs with
  | [] => st
  | ev :: evs' => if 0 <? g_children st then wait_run evs' (wait_step ev st) else st
  end.

(** A [save] line with what the environment answers. *)
Definition save_cmd : Type := string * reading.

Definition save_event (c : save_cmd) : event := Line (fst c) (snd c).

Definition arrival (prog_start : timespec) (c : save_cmd) : Z :=
  ms_since_start prog_start (now (snd c)).

(** Every command arrives less than [gap] after the one before it. *)
Fixpoint chained (gap : Z) (prev : Z) (arrivals : list Z) : Prop :=
  match arrivals with
  | [] => True
  | ms :: rest => 0 <= ms - prev < gap /\ chained gap ms rest
  end.

(** Every command arrives less than [gap] after [first]. *)
Definition clustered (gap : Z) (first : Z) (arrivals : list Z) : Prop :=
  Forall (fun ms => 0 <= ms - first < gap) arrivals.

Definition starts_with_digit (s : string) : bool :=
  match s with
  | String d _ => isdigit d
  | EmptyString => false
  end.

(** The text starts, after white space and an optional sign, with a digit. *)
Definition has_number (s : string) : bool :=
  match skip_while isspace s with
  | String c rest =>
      if Ascii.eqb c "-" || Ascii.eqb c "+"
      then starts_with_digit rest
      else isdigit c
  | EmptyString => false
  end.

(** White space as [isspace] has it, only. *)
Definition white (s : string) : Prop := skip_while isspace s = EmptyString.

(** The sign in front of a numeral: none, [+] or [-]. *)
Inductive sign_text : string -> bool -> Prop :=
| sign_none : sign_text "" false
| sign_plus : sign_text "+" false
| sign_minus : sign_text "-" true.

(** The argument of [save] as a number: after optional white space and an
    optional sign, a run of decimal digits [ds] (leading zeros allowed),
    followed by text that does not go on with a digit; the value, read
    with the Standard Library's decimal numbers, is of type [int].
    Or text that in that place has no digit. *)
Inductive duration_arg : string -> option Z -> Prop :=
| arg_numeral ws sg neg ds d junk :
    white ws ->
    sign_text sg neg ->
    NilZero.uint_of_string ds = Some d ->
    in_int (if neg then - Z.of_uint d else Z.of_uint d) ->
    starts_with_digit junk = false ->
    duration_arg (ws ++ sg ++ ds ++ junk)
      (Some (if neg then - Z.of_uint d else Z.of_uint d))
| arg_unparsable s : has_number s = false -> duration_arg s None.

Definition blanks (s : string) : Prop := skip_while is_blank s = EmptyString.

(** The flags of the command line. *)
Definition known_flags : list string :=
  ["--duration"; "--outdir"; "--min-gap"; "--verbose"; "-h"; "--help"].

Definition is_help (a : string) : bool := strcmp0 a "-h" || strcmp0 a "--help".

(** Well-formed options: the arguments the loop over [argv] steps over. *)
Inductive options : list string -> Prop :=
| options_nil : options []
| options_duration v rest : options rest -> options ("--duration" :: v :: rest)
| options_outdir v rest : options rest -> options ("--outdir" :: v :: rest)
| options_min_gap v rest : options rest -> options ("--min-gap" :: v :: rest)
| options_verbose rest : options rest -> options ("--verbose" :: rest).

Definition has_usage (prog : string) (eff : list effect) : Prop :=
  exists cfg, incl (usage prog cfg) eff.

(** The bound on the count of children that every step keeps. *)
Definition children_ok (st : state) : Prop := 0 <= g_children st <= 1.

(** ** Sample inputs *)

Definition origin : timespec := mk_timespec 0 0.

(** A reading of the clock [ms] milliseconds after [origin], with a
    [fork] that succeeds. *)
Definition at_ms (ms : Z) : reading :=
  mk_reading (mk_timespec (ms / 1000) (ms mod 1000 * 1000000))
    "19700101-000000" (ForkParent 1%positive).

(** The same with a [fork] that fails. *)
Definition at_ms_fork_fails (ms : Z) : reading :=
  mk_reading (mk_timespec (ms / 1000) (ms mod 1000 * 1000000))
    "19700101-000000" (ForkFailed "Resource temporarily unavailable").

Definition dir_exists : filesystem := mk_fs StatDir true "".

(** The state right after a first [save] at time 0 started a recording. *)
Definition recording : state :=
  state_of (loop_body cfg_default origin "save" (at_ms 0) state_init).

(** ** Statements that the program does not satisfy as they are worded *)

(** A [save] while a recording is active is always answered [Busy]. *)
Definition busy_whenever_recording : Prop :=
  forall cfg prog_start st line rd,
    reachable cfg prog_start st ->
    is_save line = true ->
    0 < g_children st ->
    branch_of (loop_body cfg prog_start line rd st) = BrSave Busy.

(** A [save] answered [Busy] leaves the state as it was. *)
Definition busy_changes_nothing : Prop :=
  forall cfg prog_start st line rd,
    reachable cfg prog_start st ->
    is_save line = true ->
    branch_of (loop_body cfg prog_start line rd st) = BrSave Busy ->
    state_of (loop_body cfg prog_start line rd st) = st.

(** Of [save]s that each arrive less than [min_gap_ms] after the one
    before, the first proceeds and all the others are debounced. *)
Definition chain_debounced : Prop :=
  forall cfg prog_start (first : save_cmd) (others : list save_cmd),
    Forall (fun c => is_save (fst c) = true) (first :: others) ->
    chained (min_gap_ms cfg) (arrival prog_start first)
      (map (arrival prog_start) others) ->
    exists dur,
      taken (command_loop cfg prog_start (map save_event (first :: others)) state_init)
      = BrSave (Proceed dur) :: map (fun _ => BrSave Debounced) others.

(** A positive integer as the argument of [save] is the duration. *)
Definition positive_argument_overrides : Prop :=
  forall cfg b n,
    blanks b -> 0 < n ->
    save_duration cfg ("save" ++ b ++ string_of_Z n) = n.

(** Any unknown flag gives usage and exit code 1; any [-h] or [--help]
    gives usage and exit code 0. *)
Definition flags_decide_exit : Prop :=
  forall argv fs prog_start evs wevs,
    ((exists a, In a (tl argv) /\ prefix "-" a = true /\ ~ In a known_flags) ->
     exists e, main argv fs prog_start evs wevs = Some e
               /\ exit_code e = 1 /\ has_usage (hd "" argv) (exit_effects e)
               /\ exit_taken e = None)
    /\ ((exists a, In a (tl argv) /\ is_help a = true) ->
        exists e, main argv fs prog_start evs wevs = Some e
                  /\ exit_code e = 0 /\ has_usage (hd "" argv) (exit_effects e)).

(** ** Vocabulary of the further properties *)

(** Only the characters [trim] removes. *)
Definition all_space (s : string) : Prop := skip_while is_trim_space s = EmptyString.

(** No character that [trim] removes at the front, none at the end. *)
Definition starts_clean (s : string) : Prop :=
  match s with
  | String c _ => is_trim_space c = false
  | EmptyString => True
  end.

Definition ends_clean (s : string) : Prop :=
  forall a c, s = a ++ String c EmptyString -> is_trim_space c = false.

(** The children a list of effects starts. *)
Fixpoint spawn_count (eff : list effect) : Z :=
  match eff with
  | [] => 0
  | Spawn _ _ :: rest => 1 + spawn_count rest
  | Stderr _ :: rest => spawn_count rest
  end.

(** The children the runs of [on_sigchld] in a list of events reap. *)
Fixpoint reaped_total (evs : list event) : Z :=
  match evs with
  | [] => 0
  | Sigchld n :: rest => Z.of_nat n + reaped_total rest
  | _ :: rest => reaped_total rest
  end.

(** The clock readings of the lines of a list of events lie in [lo, hi]. *)
Definition lines_between (prog_start : timespec) (lo hi : Z) (evs : list event) : Prop :=
  Forall (fun ev => match ev with
                    | Line _ rd => lo <= ms_since_start prog_start (now rd) <= hi
                    | _ => True
                    end) evs.

(** A [timespec] as [clock_gettime] fills it in. *)
Definition normalised (t : timespec) : Prop := 0 <= tv_nsec t < 1000000000.

(** The nanoseconds between two readings of the clock. *)
Definition elapsed_ns (prog_start t : timespec) : Z :=
  (tv_sec t - tv_sec prog_start) * 1000000000 + (tv_nsec t - tv_nsec prog_start).

(** The flags that take a value. *)
Definition value_flags : list string := ["--duration"; "--outdir"; "--min-gap"].

(** The events of the wait loop that take nothing off the count: a
    [waitpid] that fails, a run of [on_sigint], a run of [on_sigchld] that
    finds no child. *)
Definition idle_wait (ev : wait_event) : Prop :=
  match ev with
  | Waitpid ret => ret <= 0
  | WSigint => True
  | WSigchld n => n = O
  end.

(** * Properties *)

(** ** Machine integers *)

Ltac bounds :=
  unfold in_int, in_long, INT_MIN, INT_MAX, LONG_MIN, LONG_MAX,
    wrap_int, wrap_long, wrap in *;
  change (2 ^ (32 - 1)) with 2147483648 in *;
  change (2 ^ 32) with 4294967296 in *;
  change (2 ^ 31) with 2147483648 in *;
  change (2 ^ (64 - 1)) with 9223372036854775808 in *;
  change (2 ^ 64) with 18446744073709551616 in *;
  change (2 ^ 63) with 9223372036854775808 in *.

Lemma wrap_long_id z : in_long z -> wrap_long z = z.
Proof. intros H. bounds. rewrite Z.mod_small; lia. Qed.

Lemma wrap_int_id z : in_int z -> wrap_int z = z.
Proof. intros H. bounds. rewrite Z.mod_small; lia. Qed.

Lemma wrap_long_range z : in_long (wrap_long z).
Proof.
  bounds.
  pose proof (Z.mod_pos_bound (z + 9223372036854775808) 18446744073709551616).
  lia.
Qed.

Lemma wrap_int_range z : in_int (wrap_int z).
Proof.
  bounds. pose proof (Z.mod_pos_bound (z + 2147483648) 4294967296). lia.
Qed.

(** On a non-negative difference the wrap-around can only make it smaller. *)
Lemma wrap_long_le z : 0 <= z -> wrap_long z <= z.
Proof.
  intros H. bounds.
  pose proof (Z.mod_le (z + 9223372036854775808) 18446744073709551616).
  lia.
Qed.

(** A difference that is at least [m] and does not overflow upwards is
    still at least [m] in [long] arithmetic. *)
Lemma wrap_long_lower m z : m <= z <= LONG_MAX -> m <= wrap_long z.
Proof.
  intros H. destruct (Z_lt_le_dec z LONG_MIN) as [Hlt|Hge].
  - pose proof (wrap_long_range z) as Hr. unfold in_long in Hr. lia.
  - rewrite wrap_long_id; [lia|]. unfold in_long. lia.
Qed.

Lemma in_int_long z : in_int z -> in_long z.
Proof. intros H. bounds. lia. Qed.

Lemma ms_since_start_range prog_start t : in_long (ms_since_start prog_start t).
Proof. apply wrap_long_range. Qed.

(** ** The handlers and the count of children *)

Lemma children_ok_init : children_ok state_init.
Proof. unfold children_ok; simpl; lia. Qed.

Lemma reap_children st :
  children_ok st ->
  g_children (reap st) = Z.max 0 (g_children st - 1).
Proof.
  unfold children_ok, reap. intros H.
  destruct (0 <? g_children st) eqn:E; simpl.
  - apply Z.ltb_lt in E. rewrite wrap_int_id by (bounds; lia). lia.
  - apply Z.ltb_ge in E. lia.
Qed.

Lemma children_ok_reap st : children_ok st -> children_ok (reap st).
Proof.
  intros H. unfold children_ok. rewrite (reap_children st H).
  unfold children_ok in H. lia.
Qed.

Lemma children_ok_on_sigchld n st : children_ok st -> children_ok (on_sigchld n st).
Proof.
  revert st. induction n as [|n IH]; intros st H; simpl; [assumption|].
  apply IH, children_ok_reap, H.
Qed.

(** A run of [on_sigchld] that reaps [n] children takes [n] off the
    count, and stops at zero. *)
Lemma on_sigchld_children n st :
  children_ok st ->
  g_children (on_sigchld n st) = Z.max 0 (g_children st - Z.of_nat n).
Proof.
  revert st. induction n as [|n IH]; intros st H.
  - simpl. unfold children_ok in H. lia.
  - cbn [on_sigchld]. rewrite (IH (reap st) (children_ok_reap st H)).
    rewrite (reap_children st H). lia.
Qed.

Lemma children_ok_wait_step ev st :
  children_ok st -> 0 < g_children st -> children_ok (wait_step ev st).
Proof.
  intros H Hpos. destruct ev as [ret| |n]; simpl.
  - destruct (0 <? ret); [|exact H].
    unfold children_ok in *; simpl.
    assert (g_children st = 1) as -> by lia. vm_compute. split; discriminate.
  - exact H.
  - apply children_ok_on_sigchld, H.
Qed.

Lemma wait_children_run wevs st :
  wait_children wevs st =
  if 0 <? g_children (wait_run wevs st) then None else Some (wait_run wevs st).
Proof.
  revert st. induction wevs as [|ev wevs IH]; intros st; simpl.
  - reflexivity.
  - destruct (0 <? g_children st) eqn:E; [apply IH|].
    rewrite E. reflexivity.
Qed.

Lemma wait_run_app wevs1 wevs2 st :
  wait_run (wevs1 ++ wevs2) st = wait_run wevs2 (wait_run wevs1 st)
  \/ (g_children (wait_run wevs1 st) <= 0
      /\ wait_run (wevs1 ++ wevs2) st = wait_run wevs1 st).
Proof.
  revert st. induction wevs1 as [|ev wevs1 IH]; intros st; simpl.
  - left; reflexivity.
  - destruct (0 <? g_children st) eqn:E; [apply IH|].
    right. apply Z.ltb_ge in E. auto.
Qed.

(** ** The dispatch of a [save] line *)

Lemma save_prefix cmd :
  strncmp0 cmd "save" 4 = true -> exists rest, cmd = "save" ++ rest.
Proof.
  unfold strncmp0. intros H. apply String.eqb_eq in H.
  destruct cmd as [|c1 [|c2 [|c3 [|c4 rest]]]]; simpl in H; try discriminate.
  injection H as E1 E2 E3 E4 _. subst c1 c2 c3 c4. exists rest. reflexivity.
Qed.

Create HintDb children discriminated.
#[local] Hint Resolve children_ok_init children_ok_reap children_ok_on_sigchld
  children_ok_wait_step : children.

Section Run.

Variable cfg : app_config_t.
Variable prog_start : timespec.

Local Abbreviation ms_of rd := (ms_since_start prog_start (now rd)).
Local Abbreviation body := (loop_body cfg prog_start).

Lemma loop_body_save line rd st :
  is_save line = true ->
  body line rd st = do_save cfg prog_start (trim (c_str line)) rd st.
Proof.
  unfold is_save, loop_body. intros H.
  destruct (save_prefix _ H) as [rest ->].
  destruct rest; reflexivity.
Qed.

(** *** The three exits of the [save] branch *)

Lemma do_save_debounced cmd rd st :
  (wrap_long (ms_of rd - last_ms_since_start st) <? min_gap_ms cfg) = true ->
  do_save cfg prog_start cmd rd st
  = (BrSave Debounced, st,
     vlogf (verbose cfg)
       ("debounce: ignored (gap < " ++ string_of_Z (min_gap_ms cfg) ++ " ms)")).
Proof. intros H. unfold do_save, gates. rewrite H. reflexivity. Qed.

Lemma do_save_busy cmd rd st :
  (wrap_long (ms_of rd - last_ms_since_start st) <? min_gap_ms cfg) = false ->
  (0 <? g_children st) = true ->
  do_save cfg prog_start cmd rd st
  = (BrSave Busy, set_last (ms_of rd) st,
     vlogf (verbose cfg) "ignored: a recording is already running").
Proof. intros H1 H2. unfold do_save, gates. rewrite H1. simpl. rewrite H2. reflexivity. Qed.

Lemma do_save_proceed cmd rd st :
  (wrap_long (ms_of rd - last_ms_since_start st) <? min_gap_ms cfg) = false ->
  (0 <? g_children st) = false ->
  do_save cfg prog_start cmd rd st
  = let '(ret, children, eff) :=
      spawn_recorder (save_duration cfg cmd) (out_dir cfg) (verbose cfg)
        (wall rd) (forked rd) (g_children st) in
    (BrSave (Proceed (save_duration cfg cmd)),
     set_children children (set_last (ms_of rd) st),
     (eff ++ (if ret =? 0 then [] else logf "ERROR: failed to start recorder"))%list).
Proof. intros H1 H2. unfold do_save, gates. rewrite H1. simpl. rewrite H2. reflexivity. Qed.

(** Case analysis on the two tests of the [save] branch. *)
Ltac save_cases rd st E1 E2 :=
  destruct (wrap_long (ms_of rd - last_ms_since_start st) <? min_gap_ms cfg) eqn:E1;
  [ rewrite ?do_save_debounced by exact E1
  | destruct (0 <? g_children st) eqn:E2;
    [ rewrite ?do_save_busy by assumption
    | rewrite ?do_save_proceed by assumption ] ].

Lemma do_save_decision cmd rd st :
  branch_of (do_save cfg prog_start cmd rd st) = BrSave Debounced
  \/ branch_of (do_save cfg prog_start cmd rd st) = BrSave Busy
  \/ branch_of (do_save cfg prog_start cmd rd st)
     = BrSave (Proceed (save_duration cfg cmd)).
Proof.
  save_cases rd st E1 E2.
  - left. reflexivity.
  - right; left. reflexivity.
  - right; right.
    destruct (spawn_recorder _ _ _ _ _ _) as [[ret children] eff]. reflexivity.
Qed.

Lemma do_save_same_duration cmd1 cmd2 rd st :
  save_duration cfg cmd1 = save_duration cfg cmd2 ->
  do_save cfg prog_start cmd1 rd st = do_save cfg prog_start cmd2 rd st.
Proof. unfold do_save. intros ->. reflexivity. Qed.

(** *** The count of children along a run *)

Lemma children_ok_do_save cmd rd st :
  children_ok st -> children_ok (state_of (do_save cfg prog_start cmd rd st)).
Proof.
  intros H. save_cases rd st E1 E2; try exact H.
  unfold spawn_recorder. destruct (forked rd) as [err|pid]; [exact H|].
  apply Z.ltb_ge in E2. unfold children_ok in *. cbn.
  assert (g_children st = 0) as -> by lia.
  vm_compute. split; discriminate.
Qed.

Lemma children_ok_loop_body line rd st :
  children_ok st -> children_ok (state_of (body line rd st)).
Proof.
  intros H. unfold loop_body.
  destruct (trim (c_str line)) as [|c cmd]; [exact H|].
  destruct (strncmp0 (String c cmd) "quit" 4 || strncmp0 (String c cmd) "exit" 4);
    [exact H|].
  destruct (strncmp0 (String c cmd) "status" 6); [exact H|].
  destruct (strncmp0 (String c cmd) "save" 4);
    [apply children_ok_do_save, H|].
  destruct (strncmp0 (String c cmd) "help" 4 || strncmp0 (String c cmd) "?" 1);
    exact H.
Qed.

Lemma reachable_children_ok st : reachable cfg prog_start st -> children_ok st.
Proof.
  induction 1 as [|st _ IH|st _ IH|st line rd _ IH|st ret _ IH Hpos];
    auto using children_ok_loop_body with children.
Qed.

Lemma reachable_on_sigchld n st :
  reachable cfg prog_start st -> reachable cfg prog_start (on_sigchld n st).
Proof.
  revert st. induction n as [|n IH]; intros st H; simpl; [assumption|].
  apply IH, reach_reap, H.
Qed.

Lemma reachable_command_loop evs st :
  reachable cfg prog_start st ->
  reachable cfg prog_start (final (command_loop cfg prog_start evs st)).
Proof.
  revert st. induction evs as [|ev evs IH]; intros st H; simpl; [assumption|].
  destruct ev as [text rd| |n].
  - destruct (g_stop st =? 0); [|assumption].
    pose proof (reach_body cfg prog_start st text rd H) as Hb.
    destruct (body text rd st) as [[br st1] eff].
    unfold state_of in Hb; simpl in Hb.
    destruct br; simpl; try (apply IH; assumption); assumption.
  - apply IH, reach_sigint, H.
  - apply IH, reachable_on_sigchld, H.
Qed.

Lemma reachable_wait_run wevs st :
  reachable cfg prog_start st -> reachable cfg prog_start (wait_run wevs st).
Proof.
  revert st. induction wevs as [|ev wevs IH]; intros st H; simpl; [assumption|].
  destruct (0 <? g_children st) eqn:E; [|assumption].
  apply Z.ltb_lt in E. apply IH.
  destruct ev as [ret| |n].
  - apply reach_wait; assumption.
  - apply reach_sigint, H.
  - apply reachable_on_sigchld, H.
Qed.

(** Every state of a run of the two loops of [main] is reachable. *)
Lemma reachable_run evs wevs :
  reachable cfg prog_start
    (wait_run wevs (final (command_loop cfg prog_start evs state_init))).
Proof. apply reachable_wait_run, reachable_command_loop, reach_init. Qed.

(** C4. At every point of a run the count of children is at least zero: a
    run of the child-exit handler that reaps [n] children takes [n] off
    the count and stops at zero (one child: exactly one off a positive
    count, a zero count stays zero), and the wait loop of the shutdown
    keeps the count non-negative after any number of iterations. *)
Theorem children_never_negative st :
  reachable cfg prog_start st ->
  0 <= g_children st
  /\ (forall n, g_children (on_sigchld n st) = Z.max 0 (g_children st - Z.of_nat n))
  /\ g_children (on_sigchld 1 st)
     = (if 0 <? g_children st then g_children st - 1 else 0)
  /\ (forall wevs, 0 <= g_children (wait_run wevs st)).
Proof.
  intros H. pose proof (reachable_children_ok st H) as Hok.
  split; [apply Hok|].
  split; [intros n; apply on_sigchld_children, Hok|].
  split.
  - rewrite (on_sigchld_children 1 st Hok). unfold children_ok in Hok.
    destruct (0 <? g_children st) eqn:E;
      [apply Z.ltb_lt in E | apply Z.ltb_ge in E]; lia.
  - intros wevs. apply (reachable_children_ok _ (reachable_wait_run wevs st H)).
Qed.

(** *** The gates *)

Lemma vlogf_no_spawn cond msg pid argv : ~ In (Spawn pid argv) (vlogf cond msg).
Proof. destruct cond; simpl; [intros [H|[]]; discriminate H | tauto]. Qed.

(** C1, amended.  A [save] processed while a recording is active is always
    rejected and starts nothing: it is answered [Debounced] when it
    arrives less than [min_gap_ms] after the last trigger that passed the
    debounce test, and [Busy] otherwise, however long that is. *)
Theorem recording_rejects_save st line rd :
  is_save line = true ->
  0 < g_children st ->
  in_long (ms_of rd - last_ms_since_start st) ->
  branch_of (body line rd st)
  = BrSave (if ms_of rd - last_ms_since_start st <? min_gap_ms cfg
            then Debounced else Busy)
  /\ g_children (state_of (body line rd st)) = g_children st
  /\ (forall pid argv, ~ In (Spawn pid argv) (effects_of (body line rd st))).
Proof.
  intros Hsave Hpos Hrange.
  rewrite (loop_body_save _ _ _ Hsave).
  apply Z.ltb_lt in Hpos.
  rewrite <- (wrap_long_id _ Hrange) at 1.
  save_cases rd st E1 E2; [| |congruence];
    repeat split; intros pid argv; apply vlogf_no_spawn.
Qed.

(** C2, amended.  A [save] answered [Busy] leaves [g_children] and [g_stop]
    as they were and sets [last_ms_since_start] to its arrival time;
    [last_ms_since_start] is written whenever the debounce test passes,
    whatever the test of [g_children] then says, and a [save] answered
    [Debounced] changes nothing. *)
Theorem save_state_change st line rd :
  is_save line = true ->
  match branch_of (body line rd st) with
  | BrSave Debounced => state_of (body line rd st) = st
  | BrSave Busy => state_of (body line rd st) = set_last (ms_of rd) st
  | BrSave (Proceed _) =>
      last_ms_since_start (state_of (body line rd st)) = ms_of rd
      /\ g_stop (state_of (body line rd st)) = g_stop st
  | _ => False
  end.
Proof.
  intros Hsave. rewrite (loop_body_save _ _ _ Hsave).
  save_cases rd st E1 E2; try reflexivity.
  unfold spawn_recorder. destruct (forked rd); simpl; split; reflexivity.
Qed.

(** *** Bursts of [save] *)

Lemma burst_tail first_ms (others : list save_cmd) st :
  g_stop st = 0 ->
  last_ms_since_start st = first_ms ->
  Forall (fun c => is_save (fst c) = true) others ->
  clustered (min_gap_ms cfg) first_ms (map (arrival prog_start) others) ->
  taken (command_loop cfg prog_start (map save_event others) st)
  = map (fun _ => BrSave Debounced) others.
Proof.
  intros Hstop Hlast Hsaves Hgaps.
  induction others as [|c others IH]; simpl; [reflexivity|].
  inversion Hsaves as [|? ? Hc Hsaves']; subst.
  unfold clustered in Hgaps. simpl in Hgaps.
  inversion Hgaps as [|? ? Hgap Hgaps']; subst.
  rewrite Hstop. simpl.
  rewrite (loop_body_save _ _ _ Hc).
  rewrite do_save_debounced.
  - simpl. f_equal. apply IH; assumption.
  - apply Z.ltb_lt. unfold arrival in Hgap.
    pose proof (wrap_long_le _ (proj1 Hgap)). lia.
Qed.

(** C3, amended.  Of a sequence of [save] commands whose first passes both
    gates and in which every later one arrives less than [min_gap_ms]
    after the first, the first proceeds and every later one is answered
    [Debounced]. *)
Theorem burst_debounced st (first : save_cmd) (others : list save_cmd) :
  g_stop st = 0 ->
  g_children st <= 0 ->
  Forall (fun c => is_save (fst c) = true) (first :: others) ->
  min_gap_ms cfg <= arrival prog_start first - last_ms_since_start st <= LONG_MAX ->
  clustered (min_gap_ms cfg) (arrival prog_start first)
    (map (arrival prog_start) others) ->
  taken (command_loop cfg prog_start (map save_event (first :: others)) st)
  = BrSave (Proceed (save_duration cfg (trim (c_str (fst first)))))
    :: map (fun _ => BrSave Debounced) others.
Proof.
  intros Hstop Hidle Hsaves Hfirst Hgaps.
  inversion Hsaves as [|? ? Hc Hsaves']; subst.
  simpl. rewrite Hstop. simpl.
  rewrite (loop_body_save _ _ _ Hc).
  unfold arrival in Hfirst.
  rewrite do_save_proceed.
  - destruct (spawn_recorder _ _ _ _ _ _) as [[ret children] eff].
    simpl. f_equal.
    apply (burst_tail (arrival prog_start first)); auto.
  - apply Z.ltb_ge, wrap_long_lower, Hfirst.
  - apply Z.ltb_ge. exact Hidle.
Qed.

(** *** A failed [fork] *)

(** C5. When a [save] passes both gates and [fork] fails, [g_children] is 0
    afterwards, both error lines are written and nothing is spawned, the
    command loop goes on with the next event, and a [save] that arrives
    [min_gap_ms] or more later passes both gates again. *)
Theorem failed_spawn_recovers st line rd err dur line2 rd2 evs :
  reachable cfg prog_start st ->
  g_stop st = 0 ->
  is_save line = true ->
  forked rd = ForkFailed err ->
  branch_of (body line rd st) = BrSave (Proceed dur) ->
  is_save line2 = true ->
  min_gap_ms cfg <= ms_of rd2 - ms_of rd <= LONG_MAX ->
  let st1 := state_of (body line rd st) in
  let eff := effects_of (body line rd st) in
  g_children st1 = 0
  /\ eff = (logf ("ERROR: fork() failed: " ++ err)
            ++ logf "ERROR: failed to start recorder")%list
  /\ command_loop cfg prog_start (Line line rd :: evs) st
     = run_cons (BrSave (Proceed dur)) eff (command_loop cfg prog_start evs st1)
  /\ branch_of (body line2 rd2 st1)
     = BrSave (Proceed (save_duration cfg (trim (c_str line2)))).
Proof.
  intros Hreach Hstop Hsave Hfork Hbr Hsave2 Hgap.
  pose proof (reachable_children_ok _ Hreach) as Hok. unfold children_ok in Hok.
  cbv zeta. simpl command_loop. rewrite Hstop. simpl (0 =? 0).
  revert Hbr. rewrite !(loop_body_save _ _ _ Hsave).
  save_cases rd st E1 E2; try discriminate.
  unfold spawn_recorder. rewrite Hfork.
  cbn -[wrap_long ms_since_start save_duration trim].
  intros Hbr. injection Hbr as <-.
  apply Z.ltb_ge in E2.
  repeat split; [lia|].
  rewrite (loop_body_save _ _ _ Hsave2).
  rewrite do_save_proceed.
  - destruct (spawn_recorder _ _ _ _ _ _) as [[ret children] eff]. reflexivity.
  - apply Z.ltb_ge. cbn [last_ms_since_start set_children set_last].
    apply wrap_long_lower, Hgap.
  - apply Z.ltb_ge. cbn [g_children set_children set_last]. lia.
Qed.

(** *** The first [save] *)

(** With [min_gap_ms] at most 1000000 the start value of
    [last_ms_since_start] lets the first [save] through the debounce
    test at any time from the start of the program on (short of the
    last 1000000 ms that a [long] can count). *)
Lemma first_save_passes line rd :
  is_save line = true ->
  min_gap_ms cfg <= 1000000 ->
  0 <= ms_of rd <= LONG_MAX - 1000000 ->
  branch_of (body line rd state_init)
  = BrSave (Proceed (save_duration cfg (trim (c_str line)))).
Proof.
  intros Hsave Hgap Hms.
  rewrite (loop_body_save _ _ _ Hsave).
  rewrite do_save_proceed.
  - destruct (spawn_recorder _ _ _ _ _ _) as [[ret children] eff]. reflexivity.
  - apply Z.ltb_ge, wrap_long_lower. simpl. lia.
  - reflexivity.
Qed.

(** *** The last wait *)

Lemma wait_run_last_waitpid wevs pid st :
  reachable cfg prog_start st ->
  0 < pid ->
  g_children (wait_run (wevs ++ [Waitpid pid]) st) = 0.
Proof.
  intros Hreach Hpid.
  pose proof (reachable_children_ok _ (reachable_wait_run wevs _ Hreach)) as Hok.
  unfold children_ok in Hok.
  destruct (wait_run_app wevs [Waitpid pid] st) as [-> | [Hle ->]]; [|lia].
  simpl. destruct (0 <? g_children (wait_run wevs st)) eqn:E.
  - apply Z.ltb_lt in E. apply Z.ltb_lt in Hpid. rewrite Hpid. simpl.
    assert (g_children (wait_run wevs st) = 1) as -> by lia. reflexivity.
  - apply Z.ltb_ge in E. lia.
Qed.

End Run.

(** ** The gates on concrete runs *)

Lemma recording_reachable : reachable cfg_default origin recording.
Proof. apply reach_body, reach_init. Qed.

Lemma children_never_negative_witness :
  g_children recording = 1
  /\ g_children (on_sigchld 1 recording) = 0
  /\ g_children (on_sigchld 2 recording) = 0
  /\ 0 <= g_children (wait_run [Waitpid (-1); Waitpid 7] recording).
Proof.
  destruct (children_never_negative cfg_default origin recording recording_reachable)
    as (_ & Hn & _ & Hw).
  split; [reflexivity|].
  split; [rewrite Hn; reflexivity|].
  split; [rewrite Hn; reflexivity|apply Hw].
Defined.

(** C1, as worded, fails: with the default configuration a second [save]
    100 ms after the one that started the recording is answered
    [Debounced], not [Busy]. *)
Lemma busy_whenever_recording_fails : ~ busy_whenever_recording.
Proof.
  intros H.
  specialize (H cfg_default origin recording "save" (at_ms 100)
                recording_reachable eq_refl eq_refl).
  vm_compute in H. discriminate H.
Qed.

Lemma recording_rejects_save_witness :
  branch_of (loop_body cfg_default origin "save 15000" (at_ms 60000) recording)
  = BrSave Busy
  /\ branch_of (loop_body cfg_default origin "save" (at_ms 100) recording)
     = BrSave Debounced.
Proof.
  split.
  - apply (recording_rejects_save cfg_default origin recording "save 15000" (at_ms 60000));
      [reflexivity | reflexivity | vm_compute; split; discriminate].
  - apply (recording_rejects_save cfg_default origin recording "save" (at_ms 100));
      [reflexivity | reflexivity | vm_compute; split; discriminate].
Defined.

(** C2, as worded, fails: a [save] one second after the one that started
    the recording is answered [Busy] and moves [last_ms_since_start] from
    0 to 1000. *)
Lemma busy_changes_nothing_fails : ~ busy_changes_nothing.
Proof.
  intros H.
  specialize (H cfg_default origin recording "save" (at_ms 1000)
                recording_reachable eq_refl eq_refl).
  vm_compute in H. discriminate H.
Qed.

Lemma save_state_change_witness :
  state_of (loop_body cfg_default origin "save" (at_ms 1000) recording)
  = set_last 1000 recording.
Proof.
  exact (save_state_change cfg_default origin recording "save" (at_ms 1000) eq_refl).
Defined.

(** C3, as worded, fails: with the default configuration ([min_gap_ms] =
    500) and [save]s at 0, 400 and 800 ms, each 400 ms after the one
    before, the third is answered [Busy], not [Debounced]. *)
Lemma chain_debounced_fails : ~ chain_debounced.
Proof.
  intros H.
  specialize (H cfg_default origin ("save", at_ms 0)
                [("save", at_ms 400); ("save", at_ms 800)]).
  destruct H as [dur H].
  - repeat constructor.
  - vm_compute. repeat split; discriminate.
  - vm_compute in H. discriminate H.
Qed.

(** When the first recording has ended in between, the third [save] of
    such a chain even starts a second recording. *)
Example chain_third_accepted :
  taken (command_loop cfg_default origin
           [Line "save 300" (at_ms 0); Line "save" (at_ms 400); Sigchld 1;
            Line "save" (at_ms 800)] state_init)
  = [BrSave (Proceed 300); BrSave Debounced; BrSave (Proceed 10000)].
Proof. vm_compute. reflexivity. Qed.

Lemma burst_debounced_witness :
  taken (command_loop cfg_default origin
           (map save_event [("save 15000", at_ms 0); ("save", at_ms 400);
                            ("save", at_ms 499)]) state_init)
  = [BrSave (Proceed 15000); BrSave Debounced; BrSave Debounced].
Proof.
  apply (burst_debounced cfg_default origin state_init ("save 15000", at_ms 0)
           [("save", at_ms 400); ("save", at_ms 499)]).
  - reflexivity.
  - vm_compute. discriminate.
  - repeat constructor.
  - vm_compute. split; discriminate.
  - unfold clustered. repeat constructor; vm_compute; discriminate.
Defined.

Lemma failed_spawn_recovers_witness :
  let r := loop_body cfg_default origin "save" (at_ms_fork_fails 0) state_init in
  branch_of r = BrSave (Proceed 10000)
  /\ g_children (state_of r) = 0
  /\ effects_of r
     = [Stderr ("ERROR: fork() failed: Resource temporarily unavailable" ++ nl);
        Stderr ("ERROR: failed to start recorder" ++ nl)]
  /\ branch_of (loop_body cfg_default origin "save 15000" (at_ms 500) (state_of r))
     = BrSave (Proceed 15000).
Proof.
  pose proof (failed_spawn_recovers cfg_default origin state_init "save"
                (at_ms_fork_fails 0) "Resource temporarily unavailable" 10000
                "save 15000" (at_ms 500) []
                (reach_init _ _) eq_refl eq_refl eq_refl eq_refl eq_refl) as H.
  cbv zeta in H |- *.
  split; [reflexivity|].
  destruct H as (H1 & H2 & _ & H4).
  - vm_compute. split; discriminate.
  - split; [exact H1|]. split; [exact H2|exact H4].
Defined.

(** C7, the code at the failing input.  Started with [--min-gap 2000000],
    the program answers the very first [save], 5 ms after its start, on
    the debounce path: 5 - (-1000000) is less than 2000000. *)
Theorem first_save_debounced_large_gap :
  option_map exit_taken
    (main ["cam_trigger"; "--min-gap"; "2000000"] dir_exists origin
       [Line "save" (at_ms 5)] [])
  = Some (Some [BrSave Debounced]).
Proof. vm_compute. reflexivity. Qed.

(** ** Shutdown *)

(** C6. Once the arguments are parsed and the output directory is there,
    whichever way the command loop ends ([quit] or [exit], the stop flag,
    or the end of the input), [main] returns only from a state whose
    [g_children] is 0, and then with exit code 0; as long as [g_children]
    is positive after the events seen so far it has not returned.  The
    wait always ends: one more successful [waitpid] after any events
    makes [main] return. *)
Theorem shutdown_waits_for_children argv fs prog_start evs wevs cfg pid :
  parse_args (hd "" argv) (tl argv) cfg_default = inl cfg ->
  ensure_dir fs = 0 ->
  0 < pid ->
  let st := wait_run wevs (final (command_loop cfg prog_start evs state_init)) in
  match main argv fs prog_start evs wevs with
  | Some e => exit_code e = 0 /\ exit_state e = st /\ g_children st = 0
  | None => 0 < g_children st
  end
  /\ exists e, main argv fs prog_start evs (wevs ++ [Waitpid pid]) = Some e
               /\ exit_code e = 0 /\ g_children (exit_state e) = 0.
Proof.
  intros Hparse Hdir Hpid st.
  pose proof (reachable_children_ok _ _ _ (reachable_run cfg prog_start evs wevs)) as Hok.
  fold st in Hok. unfold children_ok in Hok.
  unfold main. rewrite Hparse, Hdir. simpl (0 =? 0).
  rewrite !wait_children_run. fold st.
  split.
  - destruct (0 <? g_children st) eqn:E.
    + apply Z.ltb_lt in E. exact E.
    + apply Z.ltb_ge in E. simpl. repeat split. lia.
  - pose proof (wait_run_last_waitpid cfg prog_start wevs pid
                  (final (command_loop cfg prog_start evs state_init))
                  (reachable_command_loop _ _ _ _ (reach_init _ _)) Hpid) as Hz.
    rewrite Hz. simpl. eexists. split; [reflexivity|]. simpl. split; [reflexivity|exact Hz].
Qed.

(** The three ways out of the command loop, with nothing recording: the
    [quit] command, the stop flag set by [on_sigint], the end of the
    input.  The line after [quit] or after the signal is not read. *)
Example loop_exits :
  option_map (fun e => (exit_code e, exit_taken e))
    (main ["cam_trigger"] dir_exists origin
       [Line "quit" (at_ms 0); Line "save" (at_ms 1)] [])
  = Some (0, Some [BrQuit])
  /\ option_map (fun e => (exit_code e, exit_taken e))
       (main ["cam_trigger"] dir_exists origin [Sigint; Line "save" (at_ms 1)] [])
     = Some (0, Some [])
  /\ option_map (fun e => (exit_code e, exit_taken e))
       (main ["cam_trigger"] dir_exists origin [Line "status" (at_ms 0)] [])
     = Some (0, Some [BrStatus]).
Proof. vm_compute. repeat split. Qed.

Lemma shutdown_waits_for_children_witness :
  (* [quit] with one recording in flight: in the wait loop until the child
     has been waited for *)
  main ["cam_trigger"] dir_exists origin
    [Line "save" (at_ms 0); Line "quit" (at_ms 10)] [] = None
  /\ (exists e,
        main ["cam_trigger"] dir_exists origin
          [Line "save" (at_ms 0); Line "quit" (at_ms 10)] ([] ++ [Waitpid 1]) = Some e
        /\ exit_code e = 0 /\ g_children (exit_state e) = 0).
Proof.
  pose proof (shutdown_waits_for_children ["cam_trigger"] dir_exists origin
                [Line "save" (at_ms 0); Line "quit" (at_ms 10)] [] cfg_default 1
                eq_refl eq_refl eq_refl) as [_ H].
  split; [reflexivity | exact H].
Defined.

(** ** The command line *)

Lemma parse_args_verbose prog rest cfg :
  parse_args prog ("--verbose" :: rest) cfg
  = parse_args prog rest (set_verbose true cfg).
Proof. destruct rest; reflexivity. Qed.

Lemma parse_args_options prog pre :
  options pre ->
  forall cfg0, exists cfg,
    parse_args prog pre cfg0 = inl cfg
    /\ forall more, parse_args prog (pre ++ more) cfg0 = parse_args prog more cfg.
Proof.
  induction 1 as [|v rest _ IH|v rest _ IH|v rest _ IH|rest _ IH]; intros cfg0.
  - exists cfg0. split; reflexivity.
  - destruct (IH (set_duration (atoi v) cfg0)) as (cfg & H1 & H2).
    exists cfg. split; [exact H1|]. intros more. apply H2.
  - destruct (IH (set_outdir v cfg0)) as (cfg & H1 & H2).
    exists cfg. split; [exact H1|]. intros more. apply H2.
  - destruct (IH (set_min_gap (atoi v) cfg0)) as (cfg & H1 & H2).
    exists cfg. split; [exact H1|]. intros more. apply H2.
  - destruct (IH (set_verbose true cfg0)) as (cfg & H1 & H2).
    exists cfg. split.
    + rewrite parse_args_verbose. exact H1.
    + intros more. change (("--verbose" :: rest) ++ more)%list
        with ("--verbose" :: (rest ++ more))%list.
      rewrite parse_args_verbose. apply H2.
Qed.

Lemma parse_args_help prog a rest cfg :
  is_help a = true ->
  parse_args prog (a :: rest) cfg = inr (0, usage prog cfg).
Proof.
  unfold is_help, strcmp0. intros H. apply orb_true_iff in H.
  destruct H as [H|H]; apply String.eqb_eq in H; subst a; destruct rest; reflexivity.
Qed.

Lemma parse_args_unknown prog a rest cfg :
  ~ In a known_flags ->
  parse_args prog (a :: rest) cfg
  = inr (1, Stderr ("Unknown arg: " ++ a ++ nl) :: usage prog cfg).
Proof.
  intros H. unfold known_flags in H. simpl in H.
  assert (forall f, In f known_flags -> strcmp0 a f = false) as Hf.
  { intros f Hin. apply String.eqb_neq. intros ->. apply H.
    unfold known_flags in Hin. simpl in Hin. exact Hin. }
  simpl. unfold known_flags in Hf.
  rewrite (Hf "--duration"), (Hf "--outdir"), (Hf "--min-gap"),
    (Hf "--verbose"), (Hf "-h"), (Hf "--help") by (simpl; tauto).
  destruct rest; reflexivity.
Qed.

(** C9, as worded, fails: [--help --bogus] has a flag outside the set,
    and the program exits with code 0, not 1. *)
Lemma flags_decide_exit_fails : ~ flags_decide_exit.
Proof.
  intros H.
  destruct (H ["cam_trigger"; "--help"; "--bogus"] dir_exists origin [] [])
    as [Hunknown _].
  destruct Hunknown as (e & Hmain & Hcode & _).
  - exists "--bogus". split; [simpl; tauto|]. split; [reflexivity|].
    simpl. intros [E|[E|[E|[E|[E|[E|[]]]]]]]; discriminate E.
  - vm_compute in Hmain. injection Hmain as <-. discriminate Hcode.
Qed.

(** C9, amended.  The arguments are read from left to right, and the first
    one that is not part of a well-formed option ([--duration], [--outdir]
    or [--min-gap] with its value, or [--verbose]) decides: if it is [-h]
    or [--help] the program prints the usage text and exits with code 0;
    if it is outside the set of flags the program prints [Unknown arg]
    and the usage text and exits with code 1.  In both cases the command
    loop is not entered, and what follows on the command line is not
    looked at. *)
Theorem first_stray_argument_decides prog pre a rest fs prog_start evs wevs :
  options pre ->
  is_help a = true \/ ~ In a known_flags ->
  exists cfg,
    parse_args prog pre cfg_default = inl cfg
    /\ main (prog :: pre ++ a :: rest) fs prog_start evs wevs
       = Some (mk_exit (if is_help a then 0 else 1) state_init
                 ((if is_help a then [] else [Stderr ("Unknown arg: " ++ a ++ nl)])
                  ++ usage prog cfg)%list
                 None).
Proof.
  intros Hpre Ha.
  destruct (parse_args_options prog pre Hpre cfg_default) as (cfg & H1 & H2).
  exists cfg. split; [exact H1|].
  unfold main. cbn [hd tl]. rewrite H2.
  destruct (is_help a) eqn:E.
  - rewrite parse_args_help by exact E. reflexivity.
  - destruct Ha as [Ha|Ha]; [discriminate|].
    rewrite parse_args_unknown by exact Ha. reflexivity.
Qed.

Lemma first_stray_argument_decides_witness :
  option_map exit_code
    (main ("cam_trigger" :: ["--duration"; "15000"; "--verbose"] ++ "--bogus" :: ["--help"])
       dir_exists origin [Line "save" (at_ms 0)] [])
  = Some 1
  /\ option_map exit_code
       (main ("cam_trigger" :: ["--outdir"; "-h"] ++ "--help" :: ["--bogus"])
          dir_exists origin [Line "save" (at_ms 0)] [])
     = Some 0.
Proof.
  split.
  - destruct (first_stray_argument_decides "cam_trigger"
                ["--duration"; "15000"; "--verbose"] "--bogus" ["--help"]
                dir_exists origin [Line "save" (at_ms 0)] []) as (cfg & _ & ->).
    + repeat constructor.
    + right. simpl. intros [E|[E|[E|[E|[E|[E|[]]]]]]]; discriminate E.
    + reflexivity.
  - destruct (first_stray_argument_decides "cam_trigger"
                ["--outdir"; "-h"] "--help" ["--bogus"]
                dir_exists origin [Line "save" (at_ms 0)] []) as (cfg & _ & ->).
    + repeat constructor.
    + left. reflexivity.
    + reflexivity.
Defined.

(** ** The argument of [save] *)

Lemma substring_full s : substring 0 (String.length s) s = s.
Proof. induction s as [|c s IH]; simpl; [reflexivity|]. rewrite IH. reflexivity. Qed.

Lemma after4_save rest : after4 ("save" ++ rest) = rest.
Proof.
  unfold after4. simpl. rewrite Nat.sub_0_r. apply substring_full.
Qed.

Lemma skip_blank_app b s :
  blanks b -> skip_while is_blank (b ++ s) = skip_while is_blank s.
Proof.
  unfold blanks. induction b as [|c b IH]; simpl; [reflexivity|].
  destruct (is_blank c); [exact IH|discriminate].
Qed.

Lemma is_blank_isspace c : is_blank c = true -> isspace c = true.
Proof.
  unfold is_blank, isspace. intros H. apply orb_true_iff in H.
  destruct H as [-> | ->]; [reflexivity|].
  rewrite orb_true_r. reflexivity.
Qed.

Lemma skip_isspace_blank s :
  skip_while isspace (skip_while is_blank s) = skip_while isspace s.
Proof.
  induction s as [|c s IH]; simpl; [reflexivity|].
  destruct (is_blank c) eqn:E.
  - rewrite (is_blank_isspace c E). exact IH.
  - reflexivity.
Qed.

Lemma atoi_skip_blank s : atoi (skip_while is_blank s) = atoi s.
Proof. unfold atoi, strtol10. rewrite skip_isspace_blank. reflexivity. Qed.

(** The duration of a [save] is decided by [atoi] on what follows the
    four letters and the blanks. *)
Lemma save_duration_atoi cfg b arg :
  blanks b ->
  save_duration cfg ("save" ++ b ++ arg)
  = if 0 <? atoi arg then atoi arg else duration_ms cfg.
Proof.
  intros Hb. unfold save_duration.
  rewrite after4_save, (skip_blank_app b arg Hb).
  rewrite <- (atoi_skip_blank arg).
  destruct (skip_while is_blank arg); reflexivity.
Qed.

Lemma strtol_digits_stop junk acc :
  starts_with_digit junk = false -> strtol_digits junk acc = acc.
Proof. destruct junk as [|c junk]; simpl; [reflexivity|]. intros ->. reflexivity. Qed.

Lemma strtol_digits_acc d junk acc :
  starts_with_digit junk = false ->
  strtol_digits (NilEmpty.string_of_uint d ++ junk) (Z.pos acc)
  = Z.pos (Pos.of_uint_acc d acc).
Proof.
  intros Hj. revert acc.
  induction d as [|d IH|d IH|d IH|d IH|d IH|d IH|d IH|d IH|d IH|d IH];
    intros acc; [apply strtol_digits_stop, Hj|..];
    cbn [NilEmpty.string_of_uint String.append strtol_digits Pos.of_uint_acc];
    match goal with
    | |- context [isdigit ?c] => change (isdigit c) with true; cbv beta iota
    end;
    rewrite <- IH; f_equal; unfold code; cbn [N_of_ascii N_of_digits Z.of_N]; lia.
Qed.

Lemma strtol_digits_uint d junk :
  starts_with_digit junk = false ->
  strtol_digits (NilZero.string_of_uint d ++ junk) 0 = Z.of_uint d.
Proof.
  intros Hj.
  destruct d; [simpl; apply strtol_digits_stop, Hj|..];
    unfold NilZero.string_of_uint, Z.of_uint.
  - induction d as [|d IH|d IH|d IH|d IH|d IH|d IH|d IH|d IH|d IH|d IH].
    all: try (cbn [NilEmpty.string_of_uint String.append strtol_digits Pos.of_uint];
              change (isdigit _) with true; cbv beta iota;
              apply (strtol_digits_acc _ _ _ Hj)).
    + simpl. apply strtol_digits_stop, Hj.
    + exact IH.
  - apply (strtol_digits_acc d junk 1 Hj).
  - apply (strtol_digits_acc d junk 2 Hj).
  - apply (strtol_digits_acc d junk 3 Hj).
  - apply (strtol_digits_acc d junk 4 Hj).
  - apply (strtol_digits_acc d junk 5 Hj).
  - apply (strtol_digits_acc d junk 6 Hj).
  - apply (strtol_digits_acc d junk 7 Hj).
  - apply (strtol_digits_acc d junk 8 Hj).
  - apply (strtol_digits_acc d junk 9 Hj).
Qed.

Lemma string_of_uint_head d :
  exists c rest, NilZero.string_of_uint d = String c rest
                 /\ isspace c = false
                 /\ Ascii.eqb c "-" = false /\ Ascii.eqb c "+" = false.
Proof.
  destruct d; simpl; eexists; eexists; (split; [reflexivity|]); repeat split.
Qed.

Lemma strtol10_unsigned c rest :
  isspace c = false -> Ascii.eqb c "-" = false -> Ascii.eqb c "+" = false ->
  strtol10 (String c rest) = clamp_long (strtol_digits (String c rest) 0).
Proof.
  intros Hs Hm Hp. unfold strtol10. cbn [skip_while]. rewrite Hs.
  destruct c as [[] [] [] [] [] [] [] []]; try reflexivity; discriminate.
Qed.

Lemma clamp_long_id z : in_long z -> clamp_long z = z.
Proof. unfold in_long, clamp_long. lia. Qed.

(** [atoi] reads back what [%d] prints, for every value of an [int], and
    stops at the first character that is not a digit. *)
Lemma atoi_numeral n junk :
  in_int n -> starts_with_digit junk = false -> atoi (string_of_Z n ++ junk) = n.
Proof.
  intros Hn Hj. unfold atoi, string_of_Z.
  assert (forall p,
             strtol_digits (NilZero.string_of_uint (Pos.to_uint p) ++ junk) 0 = Z.pos p)
    as Hdigits.
  { intros p. rewrite (strtol_digits_uint _ _ Hj). unfold Z.of_uint.
    rewrite DecimalPos.Unsigned.of_to. reflexivity. }
  destruct n as [|p|p].
  - cbn [Z.to_int NilZero.string_of_int].
    pose proof (strtol_digits_uint (D0 Nil) junk Hj) as Hzero.
    destruct (string_of_uint_head (D0 Nil)) as (c & rest & E & Hs & Hm & Hp).
    rewrite E in *. cbn [String.append] in *.
    rewrite (strtol10_unsigned c _ Hs Hm Hp), Hzero. reflexivity.
  - cbn [Z.to_int NilZero.string_of_int].
    destruct (string_of_uint_head (Pos.to_uint p)) as (c & rest & E & Hs & Hm & Hp).
    specialize (Hdigits p). rewrite E in *. cbn [String.append] in *.
    rewrite (strtol10_unsigned c _ Hs Hm Hp), Hdigits.
    rewrite clamp_long_id by (apply in_int_long, Hn).
    apply wrap_int_id, Hn.
  - cbn [Z.to_int NilZero.string_of_int String.append].
    unfold strtol10. cbn [skip_while]. change (isspace "-") with false. cbv beta iota.
    rewrite Hdigits. change (- Z.pos p) with (Z.neg p).
    rewrite clamp_long_id by (apply in_int_long, Hn).
    apply wrap_int_id, Hn.
Qed.

(** Without a leading number [atoi] returns 0. *)
Lemma atoi_unparsable s : has_number s = false -> atoi s = 0.
Proof.
  unfold has_number, atoi, strtol10.
  destruct (skip_while isspace s) as [|c rest]; [reflexivity|].
  destruct (Ascii.eqb c "-") eqn:Em.
  { apply Ascii.eqb_eq in Em. subst c. simpl orb. cbv beta iota. intros H.
    rewrite (strtol_digits_stop rest 0 H). reflexivity. }
  destruct (Ascii.eqb c "+") eqn:Ep.
  { apply Ascii.eqb_eq in Ep. subst c. simpl orb. cbv beta iota. intros H.
    rewrite (strtol_digits_stop rest 0 H). reflexivity. }
  simpl orb. cbv beta iota. intros H.
  assert (strtol_digits (String c rest) 0 = 0) as Hz.
  { simpl. rewrite H. reflexivity. }
  destruct c as [[] [] [] [] [] [] [] []]; try discriminate; rewrite Hz; reflexivity.
Qed.

(** Whatever the argument, the duration is a value of type [int] when the
    configured default is one. *)
Lemma save_duration_int cfg cmd :
  in_int (duration_ms cfg) -> in_int (save_duration cfg cmd).
Proof.
  intros Hd. unfold save_duration.
  destruct (skip_while is_blank (after4 cmd)) as [|c arg]; [exact Hd|].
  destruct (0 <? atoi (String c arg)); [apply wrap_int_range|exact Hd].
Qed.

(** C8, as worded, fails: the durations are [int]s, and [save 3000000000],
    a positive integer, records with the configured default of 10000 ms
    ([atoi] yields -1294967296, which is not positive). *)
Lemma positive_argument_overrides_fails : ~ positive_argument_overrides.
Proof.
  intros H.
  specialize (H cfg_default " " 3000000000 eq_refl eq_refl).
  vm_compute in H. discriminate H.
Qed.

Lemma skip_while_split p s :
  exists lead, s = lead ++ skip_while p s /\ skip_while p lead = EmptyString.
Proof.
  induction s as [|c s (lead & E & Hl)]; simpl.
  - exists EmptyString. split; reflexivity.
  - destruct (p c) eqn:Ep.
    + exists (String c lead). simpl. rewrite Ep. split; [f_equal; exact E|exact Hl].
    + exists EmptyString. split; reflexivity.
Qed.

Lemma skip_white_app ws s :
  white ws -> skip_while isspace (ws ++ s) = skip_while isspace s.
Proof.
  unfold white. induction ws as [|c ws IH]; simpl; [reflexivity|].
  destruct (isspace c); [exact IH|discriminate].
Qed.

(** [atoi] on white space, a sign, digits and what follows them. *)
Lemma atoi_signed_numeral ws sg neg ds d junk :
  white ws ->
  sign_text sg neg ->
  NilZero.uint_of_string ds = Some d ->
  in_int (if neg then - Z.of_uint d else Z.of_uint d) ->
  starts_with_digit junk = false ->
  atoi (ws ++ sg ++ ds ++ junk) = (if neg then - Z.of_uint d else Z.of_uint d).
Proof.
  intros Hws Hsg Hds Hn Hj.
  apply NilZero.sus in Hds. subst ds.
  pose proof (strtol_digits_uint d junk Hj) as Hdigits.
  unfold atoi, strtol10. rewrite (skip_white_app ws _ Hws).
  destruct (string_of_uint_head d) as (c & rest & E & Hs & Hm & Hp).
  destruct Hsg; cbn [String.append].
  - pose proof (strtol10_unsigned c (rest ++ junk) Hs Hm Hp) as Hu.
    unfold strtol10 in Hu. rewrite E in *. cbn [String.append] in *.
    rewrite Hu, Hdigits.
    rewrite clamp_long_id by (apply in_int_long, Hn).
    apply wrap_int_id, Hn.
  - cbn [skip_while]. change (isspace "+") with false. cbv beta iota.
    rewrite Hdigits.
    rewrite clamp_long_id by (apply in_int_long, Hn).
    apply wrap_int_id, Hn.
  - cbn [skip_while]. change (isspace "-") with false. cbv beta iota.
    rewrite Hdigits.
    rewrite clamp_long_id by (apply in_int_long, Hn).
    apply wrap_int_id, Hn.
Qed.

Lemma digit_char c d :
  isdigit c = true -> exists d', uint_of_char c (Some d) = Some d'.
Proof.
  destruct c as [[] [] [] [] [] [] [] []]; intros H; try discriminate H;
    eexists; reflexivity.
Qed.

(** The longest run of digits a text starts with. *)
Lemma digit_run s :
  exists ds d junk,
    s = ds ++ junk
    /\ NilEmpty.uint_of_string ds = Some d
    /\ starts_with_digit junk = false
    /\ (starts_with_digit s = true -> ds <> EmptyString).
Proof.
  induction s as [|c s (ds & d & junk & E & Hd & Hj & _)].
  - exists EmptyString, Nil, EmptyString. repeat split. discriminate.
  - destruct (isdigit c) eqn:Ec.
    + destruct (digit_char c d Ec) as [d' Hd'].
      exists (String c ds), d', junk. simpl. rewrite Hd, <- E.
      repeat split; auto. discriminate.
    + exists EmptyString, Nil, (String c s). simpl. rewrite Ec.
      repeat split. discriminate.
Qed.

(** Every argument is of one of the two kinds of [duration_arg], the
    range of the value apart: it has no number in front, or it is white
    space, a sign, a run of digits and a rest. *)
Lemma duration_arg_covers arg :
  has_number arg = false
  \/ exists ws sg neg ds d junk,
       arg = ws ++ sg ++ ds ++ junk
       /\ white ws /\ sign_text sg neg
       /\ NilZero.uint_of_string ds = Some d
       /\ starts_with_digit junk = false.
Proof.
  destruct (skip_while_split isspace arg) as (ws & E & Hws).
  unfold has_number.
  destruct (skip_while isspace arg) as [|c rest] eqn:Es; [left; reflexivity|].
  assert (forall s, starts_with_digit s = true ->
            exists ds d junk, s = ds ++ junk
              /\ NilZero.uint_of_string ds = Some d
              /\ starts_with_digit junk = false) as Hrun.
  { intros s Hs. destruct (digit_run s) as (ds & d & junk & E1 & Hd & Hj & Hne).
    exists ds, d, junk. repeat split; auto.
    destruct ds; [exfalso; apply (Hne Hs); reflexivity|exact Hd]. }
  destruct (Ascii.eqb c "-") eqn:Em.
  { apply Ascii.eqb_eq in Em. subst c. simpl orb. cbv iota.
    destruct (starts_with_digit rest) eqn:Hr; [right|left; reflexivity].
    destruct (Hrun rest Hr) as (ds & d & junk & E1 & Hd & Hj).
    exists ws, "-", true, ds, d, junk. rewrite E, E1.
    repeat split; auto. constructor. }
  destruct (Ascii.eqb c "+") eqn:Ep.
  { apply Ascii.eqb_eq in Ep. subst c. simpl orb. cbv iota.
    destruct (starts_with_digit rest) eqn:Hr; [right|left; reflexivity].
    destruct (Hrun rest Hr) as (ds & d & junk & E1 & Hd & Hj).
    exists ws, "+", false, ds, d, junk. rewrite E, E1.
    repeat split; auto. constructor. }
  simpl orb. cbv iota.
  destruct (isdigit c) eqn:Ec; [right|left; reflexivity].
  destruct (Hrun (String c rest) Ec) as (ds & d & junk & E1 & Hd & Hj).
  exists ws, "", false, ds, d, junk. rewrite E, E1.
  repeat split; auto. constructor.
Qed.

(** C8, amended.  The argument of a [save] command is read as [atoi] reads
    it: after any white space and an optional [+] or [-], the run of
    decimal digits there is the number, and what follows it is not looked
    at.  When the value is of type [int], a positive one is the duration
    of this recording and a non-positive one leaves the configured
    default; an argument without a digit in that place leaves the default
    too.  The gates answer [Debounced], [Busy] or proceed with exactly
    that duration, and a later plain [save] uses the configured default
    again. *)
Theorem save_argument_overrides cfg prog_start rd st b arg v :
  blanks b ->
  duration_arg arg v ->
  let cmd := "save" ++ b ++ arg in
  let dur := match v with
             | Some n => if 0 <? n then n else duration_ms cfg
             | None => duration_ms cfg
             end in
  save_duration cfg cmd = dur
  /\ (branch_of (do_save cfg prog_start cmd rd st) = BrSave Debounced
      \/ branch_of (do_save cfg prog_start cmd rd st) = BrSave Busy
      \/ branch_of (do_save cfg prog_start cmd rd st) = BrSave (Proceed dur))
  /\ save_duration cfg "save" = duration_ms cfg.
Proof.
  intros Hb Harg cmd dur.
  assert (save_duration cfg cmd = dur) as Hdur.
  { unfold cmd, dur. rewrite (save_duration_atoi cfg b arg Hb).
    destruct Harg as [ws sg neg ds d junk Hws Hsg Hds Hn Hj | s Hs].
    - rewrite (atoi_signed_numeral ws sg neg ds d junk Hws Hsg Hds Hn Hj). reflexivity.
    - rewrite (atoi_unparsable s Hs). reflexivity. }
  split; [exact Hdur|]. split; [|reflexivity].
  rewrite <- Hdur. apply do_save_decision.
Qed.

Lemma save_argument_overrides_witness :
  save_duration cfg_default "save 15000" = 15000
  /\ save_duration cfg_default ("save" ++ String TAB " -5") = 10000
  /\ save_duration cfg_default "save -0" = 10000
  /\ save_duration cfg_default "save fast" = 10000
  /\ save_duration cfg_default "save 12abc" = 12
  /\ save_duration cfg_default "save +5" = 5
  /\ save_duration cfg_default "save 007" = 7
  /\ save_duration cfg_default ("save" ++ String CR "5") = 5.
Proof.
  assert (blanks " ") as Hb by reflexivity.
  assert (blanks (String TAB " ")) as Hb' by reflexivity.
  assert (blanks "") as Hb0 by reflexivity.
  assert (forall z, z = 15000 \/ z = -5 \/ z = 0 \/ z = 12 \/ z = 5 \/ z = 7 -> in_int z)
    as Hint by (intros z H; unfold in_int, INT_MIN, INT_MAX;
                change (2 ^ 31) with 2147483648; lia).
  refine (conj _ (conj _ (conj _ (conj _ (conj _ (conj _ (conj _ _))))))).
  - apply (save_argument_overrides cfg_default origin (at_ms 0) state_init
             " " "15000" (Some 15000) Hb).
    apply (arg_numeral "" "" false "15000" (D1 (D5 (D0 (D0 (D0 Nil))))) "");
      [reflexivity | constructor | reflexivity | apply Hint; tauto | reflexivity].
  - apply (save_argument_overrides cfg_default origin (at_ms 0) state_init
             (String TAB " ") "-5" (Some (-5)) Hb').
    apply (arg_numeral "" "-" true "5" (D5 Nil) "");
      [reflexivity | constructor | reflexivity | apply Hint; tauto | reflexivity].
  - apply (save_argument_overrides cfg_default origin (at_ms 0) state_init
             " " "-0" (Some 0) Hb).
    apply (arg_numeral "" "-" true "0" (D0 Nil) "");
      [reflexivity | constructor | reflexivity | apply Hint; tauto | reflexivity].
  - apply (save_argument_overrides cfg_default origin (at_ms 0) state_init
             " " "fast" None Hb).
    apply arg_unparsable. reflexivity.
  - apply (save_argument_overrides cfg_default origin (at_ms 0) state_init
             " " "12abc" (Some 12) Hb).
    apply (arg_numeral "" "" false "12" (D1 (D2 Nil)) "abc");
      [reflexivity | constructor | reflexivity | apply Hint; tauto | reflexivity].
  - apply (save_argument_overrides cfg_default origin (at_ms 0) state_init
             " " "+5" (Some 5) Hb).
    apply (arg_numeral "" "+" false "5" (D5 Nil) "");
      [reflexivity | constructor | reflexivity | apply Hint; tauto | reflexivity].
  - apply (save_argument_overrides cfg_default origin (at_ms 0) state_init
             " " "007" (Some 7) Hb).
    apply (arg_numeral "" "" false "007" (D0 (D0 (D7 Nil))) "");
      [reflexivity | constructor | reflexivity | apply Hint; tauto | reflexivity].
  - apply (save_argument_overrides cfg_default origin (at_ms 0) state_init
             "" (String CR "5") (Some 5) Hb0).
    apply (arg_numeral (String CR "") "" false "5" (D5 Nil) "");
      [reflexivity | constructor | reflexivity | apply Hint; tauto | reflexivity].
Defined.

(** ** Dispatch *)

(** C10. The dispatch compares the first characters of the whole trimmed
    line with [strncmp]: a line whose trimmed text starts with [save] runs
    the [save] branch, with what follows the four letters, after spaces
    and tabs, read by [atoi] as the duration; so [save15000] does what
    [save 15000] does, [quitting] takes the [quit] branch and [statuses]
    the [status] branch. *)
Theorem dispatch_by_prefix cfg prog_start line rd st :
  is_save line = true ->
  (exists rest,
      trim (c_str line) = "save" ++ rest
      /\ loop_body cfg prog_start line rd st
         = do_save cfg prog_start ("save" ++ rest) rd st
      /\ save_duration cfg ("save" ++ rest)
         = (if 0 <? atoi (skip_while is_blank rest)
            then atoi (skip_while is_blank rest) else duration_ms cfg))
  /\ loop_body cfg prog_start "save15000" rd st
     = loop_body cfg prog_start "save 15000" rd st
  /\ branch_of (loop_body cfg prog_start "save15000" rd st)
     = branch_of (do_save cfg prog_start "save 15000" rd st)
  /\ branch_of (loop_body cfg prog_start "quitting" rd st) = BrQuit
  /\ branch_of (loop_body cfg prog_start "statuses" rd st) = BrStatus.
Proof.
  intros Hsave. split; [|split; [|split; [|split]]].
  - pose proof Hsave as Hp. unfold is_save in Hp.
    destruct (save_prefix _ Hp) as [rest E].
    exists rest. split; [exact E|]. split.
    + rewrite (loop_body_save _ _ _ _ _ Hsave), E. reflexivity.
    + unfold save_duration. rewrite after4_save.
      destruct (skip_while is_blank rest); reflexivity.
  - rewrite (loop_body_save cfg prog_start "save15000" rd st eq_refl).
    rewrite (loop_body_save cfg prog_start "save 15000" rd st eq_refl).
    apply do_save_same_duration. reflexivity.
  - rewrite (loop_body_save cfg prog_start "save15000" rd st eq_refl).
    apply (f_equal branch_of), do_save_same_duration. reflexivity.
  - reflexivity.
  - reflexivity.
Qed.

Lemma dispatch_by_prefix_witness :
  loop_body cfg_default origin "savefile 20" (at_ms 0) state_init
  = do_save cfg_default origin "savefile 20" (at_ms 0) state_init
  /\ branch_of (loop_body cfg_default origin "save15000" (at_ms 0) state_init)
     = BrSave (Proceed 15000)
  /\ branch_of (loop_body cfg_default origin "quitting" (at_ms 0) state_init) = BrQuit.
Proof.
  destruct (dispatch_by_prefix cfg_default origin "savefile 20" (at_ms 0) state_init
              eq_refl) as ((rest & E & Hbody & _) & _ & Hsame & Hquit & _).
  split; [|split].
  - rewrite Hbody, <- E. reflexivity.
  - rewrite Hsame. reflexivity.
  - exact Hquit.
Defined.

(** * Further properties *)

(** ** [trim] *)

Lemma skip_while_starts s : starts_clean (skip_while is_trim_space s).
Proof.
  induction s as [|c s IH]; simpl; [exact I|].
  destruct (is_trim_space c) eqn:E; [exact IH|exact E].
Qed.

Lemma get_app_tail a c b k :
  get (String.length a + k) (a ++ String c b) = get k (String c b).
Proof. induction a as [|x a IH]; simpl; [reflexivity|exact IH]. Qed.

Lemma substring_app_head a c b :
  substring 0 (S (String.length a)) (a ++ String c b) = a ++ String c EmptyString.
Proof.
  induction a as [|x a IH]; simpl.
  - destruct b; reflexivity.
  - f_equal. exact IH.
Qed.

Lemma all_space_get b k x :
  all_space b -> get k b = Some x -> is_trim_space x = true.
Proof.
  unfold all_space. revert k. induction b as [|y b IH]; intros k Hb Hg.
  - destruct k; discriminate Hg.
  - simpl in Hb. destruct (is_trim_space y) eqn:Ey; [|discriminate].
    destruct k as [|k]; simpl in Hg.
    + injection Hg as <-. exact Ey.
    + exact (IH k Hb Hg).
Qed.

Lemma get_none_length s k : get k s = None -> (String.length s <= k)%nat.
Proof.
  revert k. induction s as [|c s IH]; intros k H; simpl; [lia|].
  destruct k as [|k]; [discriminate|]. simpl in H. specialize (IH k H). lia.
Qed.

(** The second loop of [trim] on a string whose last character that is
    not white space is [c]: it stops right behind [c]. *)
Lemma trim_tail_stops a c b k :
  is_trim_space c = false -> all_space b -> (k <= String.length b)%nat ->
  trim_tail (a ++ String c b) (S (String.length a + k)) = a ++ String c EmptyString.
Proof.
  intros Hc Hb. induction k as [|k IH]; intros Hk.
  - cbn [trim_tail]. rewrite Nat.add_0_r.
    replace (get (String.length a) (a ++ String c b)) with (Some c).
    + rewrite Hc. apply substring_app_head.
    + rewrite <- (Nat.add_0_r (String.length a)) at 1. rewrite get_app_tail. reflexivity.
  - cbn [trim_tail]. rewrite get_app_tail. cbn [get].
    destruct (get k b) as [x|] eqn:Hg.
    + rewrite (all_space_get b k x Hb Hg).
      replace (String.length a + S k)%nat with (S (String.length a + k)) by lia.
      apply IH. lia.
    + apply get_none_length in Hg. lia.
Qed.

Lemma trim_tail_all_space b k :
  all_space b -> (k <= String.length b)%nat -> trim_tail b k = EmptyString.
Proof.
  intros Hb. induction k as [|k IH]; intros Hk; [reflexivity|].
  cbn [trim_tail]. destruct (get k b) as [x|] eqn:Hg.
  - rewrite (all_space_get b k x Hb Hg). apply IH. lia.
  - apply get_none_length in Hg. lia.
Qed.

(** A string is white space only, or has a last character that is not. *)
Lemma last_clean_split s :
  all_space s
  \/ exists a c b, s = a ++ String c b /\ is_trim_space c = false /\ all_space b.
Proof.
  induction s as [|x s IH].
  - left. reflexivity.
  - destruct IH as [Hs | (a & c & b & E & Hc & Hb)].
    + destruct (is_trim_space x) eqn:Ex.
      * left. unfold all_space. simpl. rewrite Ex. exact Hs.
      * right. exists EmptyString, x, s. auto.
    + right. exists (String x a), c, b. subst s. auto.
Qed.

Lemma length_app a b : String.length (a ++ b) = (String.length a + String.length b)%nat.
Proof. induction a as [|x a IH]; simpl; [reflexivity|]. rewrite IH. reflexivity. Qed.

Lemma app_assoc_string a b c : (a ++ b) ++ c = a ++ b ++ c.
Proof. induction a as [|x a IH]; simpl; [reflexivity|]. rewrite IH. reflexivity. Qed.

Lemma app_last_inj a c a' c' :
  a ++ String c EmptyString = a' ++ String c' EmptyString -> c = c'.
Proof.
  revert a'. induction a as [|x a IH]; intros [|x' a'] H; simpl in H.
  - injection H as ->. reflexivity.
  - injection H as _ H. destruct a'; discriminate H.
  - injection H as _ H. destruct a; discriminate H.
  - injection H as _ H. exact (IH a' H).
Qed.

(** What [trim] computes on a string cut into its parts. *)
Lemma trim_parts s :
  (all_space s /\ trim s = EmptyString)
  \/ exists lead a c trail,
       s = lead ++ (a ++ String c EmptyString) ++ trail
       /\ all_space lead /\ all_space trail
       /\ starts_clean (a ++ String c EmptyString)
       /\ is_trim_space c = false
       /\ trim s = a ++ String c EmptyString.
Proof.
  unfold trim.
  destruct (skip_while_split is_trim_space s) as (lead & E & Hlead).
  pose proof (skip_while_starts s) as Hstart.
  destruct (last_clean_split (skip_while is_trim_space s))
    as [Hs | (a & c & b & E1 & Hc & Hb)].
  - left. split.
    + unfold all_space. destruct (skip_while is_trim_space s) as [|x r] eqn:Es;
        [reflexivity|].
      simpl in Hstart. unfold all_space in Hs. simpl in Hs. rewrite Hstart in Hs.
      discriminate Hs.
    + apply trim_tail_all_space; [exact Hs|lia].
  - right. exists lead, a, c, b.
    assert (trim_tail (skip_while is_trim_space s)
              (String.length (skip_while is_trim_space s))
            = a ++ String c EmptyString) as Ht.
    { rewrite E1. rewrite length_app. cbn [String.length].
      replace (String.length a + S (String.length b))%nat
        with (S (String.length a + String.length b)) by lia.
      apply trim_tail_stops; auto. }
    repeat split; try assumption.
    + rewrite E at 1. rewrite E1. rewrite app_assoc_string. reflexivity.
    + rewrite E1 in Hstart. destruct a; exact Hstart.
Qed.

(** X1. [trim] takes white space (space, tab, line feed, carriage return)
    off both ends and nothing else: the line is the trimmed text between
    a prefix and a suffix of white space only, and the trimmed text
    neither starts nor ends with one of the four characters. *)
Theorem trim_takes_only_outer_space s :
  exists lead trail,
    s = lead ++ trim s ++ trail
    /\ all_space lead /\ all_space trail
    /\ starts_clean (trim s) /\ ends_clean (trim s).
Proof.
  destruct (trim_parts s) as [[Hs Ht] | (lead & a & c & trail & E & Hl & Htr & Hst & Hc & Ht)].
  - exists s, EmptyString. rewrite Ht. repeat split; auto.
    + clear. induction s as [|x s IH]; simpl; [reflexivity|]. f_equal. exact IH.
    + intros a c E. destruct a; discriminate E.
  - exists lead, trail. rewrite Ht. repeat split; auto.
    intros a' c' E'. apply app_last_inj in E'. subst c'. exact Hc.
Qed.

Lemma skip_clean s : starts_clean s -> skip_while is_trim_space s = s.
Proof. destruct s as [|c s]; simpl; [reflexivity|]. intros ->. reflexivity. Qed.

Lemma trim_clean a c :
  starts_clean (a ++ String c EmptyString) -> is_trim_space c = false ->
  trim (a ++ String c EmptyString) = a ++ String c EmptyString.
Proof.
  intros Hs Hc. unfold trim. rewrite (skip_clean _ Hs).
  rewrite length_app. cbn [String.length].
  replace (String.length a + 1)%nat with (S (String.length a + 0)) by lia.
  apply trim_tail_stops; [exact Hc|reflexivity|apply Nat.le_0_l].
Qed.

(** X2. Trimming twice is trimming once. *)
Theorem trim_idempotent s : trim (trim s) = trim s.
Proof.
  destruct (trim_parts s) as [[_ Ht] | (lead & a & c & trail & _ & _ & _ & Hst & Hc & Ht)];
    rewrite Ht; [reflexivity|].
  apply trim_clean; assumption.
Qed.

Lemma string_snoc s :
  s = EmptyString \/ exists a c, s = a ++ String c EmptyString.
Proof.
  induction s as [|x s [-> | (a & c & ->)]].
  - left. reflexivity.
  - right. exists EmptyString, x. reflexivity.
  - right. exists (String x a), c. reflexivity.
Qed.

Lemma all_space_last a c : all_space (a ++ String c EmptyString) -> is_trim_space c = true.
Proof.
  unfold all_space. induction a as [|x a IH]; simpl.
  - destruct (is_trim_space c); [reflexivity|discriminate].
  - destruct (is_trim_space x); [exact IH|discriminate].
Qed.

(** X3. A line that neither starts nor ends with white space comes out
    of [trim] as it went in: inner white space is kept. *)
Theorem trim_keeps_clean_text s :
  starts_clean s -> ends_clean s -> trim s = s.
Proof.
  intros Hstart Hend.
  destruct (string_snoc s) as [-> | (a & c & ->)]; [reflexivity|].
  apply trim_clean; [exact Hstart|].
  exact (Hend a c eq_refl).
Qed.

Lemma trim_keeps_clean_text_witness : trim "save  15000" = "save  15000".
Proof.
  apply trim_keeps_clean_text.
  - reflexivity.
  - intros a c E.
    change "save  15000" with ("save  1500" ++ String "0" EmptyString) in E.
    apply app_last_inj in E. subst c. reflexivity.
Defined.

(** X4. A line of white space only (an empty line included) is skipped in
    silence: nothing is written, the state stays, and the loop goes on
    with the next event. *)
Theorem blank_line_skipped cfg prog_start line rd evs st :
  all_space (c_str line) ->
  g_stop st = 0 ->
  loop_body cfg prog_start line rd st = (BrEmpty, st, [])
  /\ command_loop cfg prog_start (Line line rd :: evs) st
     = run_cons BrEmpty [] (command_loop cfg prog_start evs st).
Proof.
  intros Hs Hstop.
  assert (loop_body cfg prog_start line rd st = (BrEmpty, st, [])) as Hb.
  { unfold loop_body.
    destruct (trim_parts (c_str line))
      as [[_ ->] | (lead & a & c & trail & E & Hl & Htr & _ & Hc & _)]; [reflexivity|].
    exfalso. rewrite E in Hs. clear E.
    unfold all_space in Hs, Hl. revert Hs.
    induction lead as [|x lead IH]; simpl.
    - clear -Hc. induction a as [|y a IH]; simpl.
      + rewrite Hc. discriminate.
      + destruct (is_trim_space y); [exact IH|discriminate].
    - simpl in Hl. destruct (is_trim_space x); [exact (IH Hl)|discriminate]. }
  split; [exact Hb|].
  simpl. rewrite Hstop, Hb. reflexivity.
Qed.

Lemma blank_line_skipped_witness :
  command_loop cfg_default origin
    [Line (String TAB "  " ++ String CR (String LF "")) (at_ms 0); Line "status" (at_ms 1)]
    state_init
  = run_cons BrEmpty []
      (command_loop cfg_default origin [Line "status" (at_ms 1)] state_init).
Proof.
  apply (blank_line_skipped cfg_default origin
           (String TAB "  " ++ String CR (String LF "")) (at_ms 0)
           [Line "status" (at_ms 1)] state_init); reflexivity.
Defined.

(** ** The command loop *)

Lemma on_sigchld_fields n st :
  g_stop (on_sigchld n st) = g_stop st
  /\ last_ms_since_start (on_sigchld n st) = last_ms_since_start st.
Proof.
  revert st. induction n as [|n IH]; intros st; simpl; [tauto|].
  destruct (IH (reap st)) as [-> ->]. unfold reap.
  destruct (0 <? g_children st); simpl; tauto.
Qed.

(** X5. When the test of [g_stop] at the head of the command loop finds
    the flag set, because [on_sigint] ran before that test, the loop is
    left there: of the lines still to come none is read or processed,
    nothing is written, the time of the last trigger stays, and the flag
    stays set whatever handlers run meanwhile.  (A signal that arrives
    after the test, while [getline] is reading, is seen at the next test;
    the line being read is still processed.) *)
Theorem stop_flag_ends_loop cfg prog_start evs st :
  g_stop st <> 0 ->
  taken (command_loop cfg prog_start evs st) = []
  /\ effects (command_loop cfg prog_start evs st) = []
  /\ g_stop (final (command_loop cfg prog_start evs st)) <> 0
  /\ last_ms_since_start (final (command_loop cfg prog_start evs st))
     = last_ms_since_start st.
Proof.
  revert st. induction evs as [|ev evs IH]; intros st Hstop.
  - simpl. auto.
  - destruct ev as [text rd| |n]; cbn [command_loop].
    + apply Z.eqb_neq in Hstop. rewrite Hstop. simpl.
      apply Z.eqb_neq in Hstop. auto.
    + destruct (IH (on_sigint st)) as (H1 & H2 & H3 & H4); [simpl; discriminate|].
      auto.
    + destruct (on_sigchld_fields n st) as [Hs Hl].
      destruct (IH (on_sigchld n st)) as (H1 & H2 & H3 & H4); [rewrite Hs; exact Hstop|].
      rewrite H4, Hl. auto.
Qed.

Lemma stop_flag_ends_loop_witness :
  taken (command_loop cfg_default origin
           [Line "save" (at_ms 0); Sigchld 1; Line "status" (at_ms 5)]
           (on_sigint state_init)) = []
  /\ effects (command_loop cfg_default origin
                [Line "save" (at_ms 0); Sigchld 1; Line "status" (at_ms 5)]
                (on_sigint state_init)) = [].
Proof.
  destruct (stop_flag_ends_loop cfg_default origin
              [Line "save" (at_ms 0); Sigchld 1; Line "status" (at_ms 5)]
              (on_sigint state_init)) as (H1 & H2 & _).
  - simpl. discriminate.
  - split; [exact H1|exact H2].
Defined.

Lemma spawn_count_app e1 e2 :
  spawn_count (e1 ++ e2) = spawn_count e1 + spawn_count e2.
Proof.
  induction e1 as [|[text|pid argv] e1 IH]; cbn [spawn_count List.app];
    [reflexivity|exact IH|].
  rewrite IH. lia.
Qed.

Lemma spawn_count_vlogf cond msg : spawn_count (vlogf cond msg) = 0.
Proof. destruct cond; reflexivity. Qed.

Section Accounting.

Variable cfg : app_config_t.
Variable prog_start : timespec.

Lemma do_save_spawns cmd rd st :
  children_ok st ->
  spawn_count (effects_of (do_save cfg prog_start cmd rd st))
  = g_children (state_of (do_save cfg prog_start cmd rd st)) - g_children st.
Proof.
  intros Hok. unfold children_ok in Hok.
  destruct (wrap_long (ms_since_start prog_start (now rd) - last_ms_since_start st)
              <? min_gap_ms cfg) eqn:E1.
  { rewrite do_save_debounced by exact E1.
    unfold effects_of, state_of. simpl. rewrite spawn_count_vlogf. lia. }
  destruct (0 <? g_children st) eqn:E2.
  { rewrite do_save_busy by assumption.
    unfold effects_of, state_of. simpl. rewrite spawn_count_vlogf. lia. }
  rewrite do_save_proceed by assumption.
  apply Z.ltb_ge in E2. assert (g_children st = 0) as Hz by lia.
  unfold spawn_recorder. destruct (forked rd) as [err|pid];
    unfold effects_of, state_of; cbn -[wrap_int]; rewrite Hz.
  - reflexivity.
  - rewrite spawn_count_app, spawn_count_vlogf. reflexivity.
Qed.

Lemma loop_body_not_save line rd st :
  is_save line = false ->
  state_of (loop_body cfg prog_start line rd st) = st
  /\ spawn_count (effects_of (loop_body cfg prog_start line rd st)) = 0
  /\ forall d, branch_of (loop_body cfg prog_start line rd st) <> BrSave d.
Proof.
  unfold is_save, loop_body. intros H.
  destruct (trim (c_str line)) as [|c cmd]; [repeat split; discriminate|].
  rewrite H.
  destruct (strncmp0 (String c cmd) "quit" 4 || strncmp0 (String c cmd) "exit" 4);
    [repeat split; discriminate|].
  destruct (strncmp0 (String c cmd) "status" 6); [repeat split; discriminate|].
  destruct (strncmp0 (String c cmd) "help" 4 || strncmp0 (String c cmd) "?" 1);
    repeat split; discriminate.
Qed.

Lemma loop_body_spawns line rd st :
  children_ok st ->
  spawn_count (effects_of (loop_body cfg prog_start line rd st))
  = g_children (state_of (loop_body cfg prog_start line rd st)) - g_children st.
Proof.
  intros Hok. destruct (is_save line) eqn:E.
  - rewrite (loop_body_save cfg prog_start line rd st E). apply do_save_spawns, Hok.
  - destruct (loop_body_not_save line rd st E) as (-> & -> & _). lia.
Qed.

Lemma command_loop_spawns evs st :
  children_ok st ->
  spawn_count (effects (command_loop cfg prog_start evs st)) + g_children st
  <= 1 + reaped_total evs.
Proof.
  revert st. induction evs as [|ev evs IH]; intros st Hok.
  - cbn. unfold children_ok in Hok. lia.
  - destruct ev as [text rd| |n]; cbn [command_loop reaped_total].
    + assert (0 <= reaped_total evs) as Hr.
      { clear. induction evs as [|[| |n] evs IH]; cbn [reaped_total]; lia. }
      destruct (g_stop st =? 0);
        [|cbn [effects spawn_count]; unfold children_ok in Hok; lia].
      pose proof (loop_body_spawns text rd st Hok) as Hs.
      pose proof (children_ok_loop_body cfg prog_start text rd st Hok) as Hok1.
      destruct (loop_body cfg prog_start text rd st) as [[br st1] eff].
      unfold effects_of, state_of in Hs, Hok1. simpl in Hs, Hok1.
      specialize (IH st1 Hok1).
      assert (spawn_count eff + g_children st <= 1) as Hq
        by (unfold children_ok in Hok1; lia).
      destruct br; cbn [effects run_cons spawn_count]; rewrite ?spawn_count_app; try lia;
        rewrite List.app_nil_r; lia.
    + apply (IH (on_sigint st)). exact Hok.
    + pose proof (on_sigchld_children n st Hok) as Hn.
      specialize (IH (on_sigchld n st) (children_ok_on_sigchld n st Hok)).
      pose proof (Z.le_max_r 0 (g_children st - Z.of_nat n)) as Hm.
      rewrite <- Hn in Hm. clear Hn.
      generalize dependent (g_children (on_sigchld n st)).
      generalize (spawn_count (effects (command_loop cfg prog_start evs (on_sigchld n st)))).
      intros; lia.
Qed.

Lemma spawn_count_nonneg eff : 0 <= spawn_count eff.
Proof. induction eff as [|[text|pid argv] eff IH]; cbn [spawn_count]; lia. Qed.

Lemma loop_body_nonneg line rd st :
  0 <= spawn_count (effects_of (loop_body cfg prog_start line rd st)).
Proof. apply spawn_count_nonneg. Qed.

End Accounting.

(** X6. Every child an iteration starts is counted: the children a line
    spawns are exactly the increase of [g_children], and that is 0 or 1. *)
Theorem spawns_are_counted cfg prog_start line rd st :
  reachable cfg prog_start st ->
  spawn_count (effects_of (loop_body cfg prog_start line rd st))
  = g_children (state_of (loop_body cfg prog_start line rd st)) - g_children st
  /\ 0 <= spawn_count (effects_of (loop_body cfg prog_start line rd st)) <= 1.
Proof.
  intros Hreach.
  pose proof (reachable_children_ok _ _ _ Hreach) as Hok.
  pose proof (loop_body_spawns cfg prog_start line rd st Hok) as Hs.
  pose proof (loop_body_nonneg cfg prog_start line rd st) as Hn.
  pose proof (children_ok_loop_body cfg prog_start line rd st Hok) as Hok1.
  unfold children_ok in *. split; [exact Hs|lia].
Qed.

Lemma spawns_are_counted_witness :
  spawn_count (effects_of (loop_body cfg_default origin "save" (at_ms 0) state_init)) = 1
  /\ spawn_count (effects_of (loop_body cfg_default origin "save" (at_ms 900) recording))
     = 0.
Proof.
  split.
  - rewrite (proj1 (spawns_are_counted cfg_default origin "save" (at_ms 0) state_init
                      (reach_init _ _))).
    reflexivity.
  - rewrite (proj1 (spawns_are_counted cfg_default origin "save" (at_ms 900) recording
                      recording_reachable)).
    reflexivity.
Defined.

(** X7. Only a [save] line can change anything: a line that is not a
    [save] ([status], [help], [quit], an unknown command) leaves the whole
    state as it is, spawns nothing and never takes the [save] branch. *)
Theorem only_save_changes_state cfg prog_start line rd st :
  is_save line = false ->
  state_of (loop_body cfg prog_start line rd st) = st
  /\ spawn_count (effects_of (loop_body cfg prog_start line rd st)) = 0
  /\ forall d, branch_of (loop_body cfg prog_start line rd st) <> BrSave d.
Proof. apply loop_body_not_save. Qed.

Lemma only_save_changes_state_witness :
  state_of (loop_body cfg_default origin "sav 15000" (at_ms 0) recording) = recording
  /\ state_of (loop_body cfg_default origin "Save" (at_ms 0) recording) = recording.
Proof.
  split.
  - apply (only_save_changes_state cfg_default origin "sav 15000" (at_ms 0) recording).
    reflexivity.
  - apply (only_save_changes_state cfg_default origin "Save" (at_ms 0) recording).
    reflexivity.
Defined.

(** X8. One recording at a time, as the program counts them: along any
    run of the command loop the children spawned, plus the one counted at
    its start, are at most one more than the children its runs of
    [on_sigchld] reaped. *)
Theorem spawns_bounded_by_reaped cfg prog_start evs st :
  reachable cfg prog_start st ->
  spawn_count (effects (command_loop cfg prog_start evs st)) + g_children st
  <= 1 + reaped_total evs.
Proof.
  intros Hreach. apply command_loop_spawns.
  exact (reachable_children_ok _ _ _ Hreach).
Qed.

Lemma spawns_bounded_by_reaped_witness :
  spawn_count
    (effects (command_loop cfg_default origin
                [Line "save" (at_ms 0); Line "save" (at_ms 600); Sigchld 1;
                 Line "save" (at_ms 1200); Line "save" (at_ms 1800)] state_init))
  = 2
  /\ spawn_count
       (effects (command_loop cfg_default origin
                   [Line "save" (at_ms 0); Line "save" (at_ms 600); Sigchld 1;
                    Line "save" (at_ms 1200); Line "save" (at_ms 1800)] state_init))
     + g_children state_init <= 1 + 1.
Proof.
  split; [reflexivity|].
  apply (spawns_bounded_by_reaped cfg_default origin
           [Line "save" (at_ms 0); Line "save" (at_ms 600); Sigchld 1;
            Line "save" (at_ms 1200); Line "save" (at_ms 1800)] state_init).
  apply reach_init.
Defined.

(** ** The time between two recordings *)

Section Spacing.

Variable cfg : app_config_t.
Variable prog_start : timespec.

Lemma loop_body_last line rd st :
  last_ms_since_start (state_of (loop_body cfg prog_start line rd st))
  = last_ms_since_start st
  \/ last_ms_since_start (state_of (loop_body cfg prog_start line rd st))
     = ms_since_start prog_start (now rd).
Proof.
  destruct (is_save line) eqn:E.
  - rewrite (loop_body_save cfg prog_start line rd st E).
    destruct (wrap_long (ms_since_start prog_start (now rd) - last_ms_since_start st)
                <? min_gap_ms cfg) eqn:E1.
    { rewrite do_save_debounced by exact E1. left. reflexivity. }
    destruct (0 <? g_children st) eqn:E2.
    { rewrite do_save_busy by assumption. right. reflexivity. }
    rewrite do_save_proceed by assumption.
    destruct (spawn_recorder _ _ _ _ _ _) as [[ret children] eff]. right. reflexivity.
  - left. destruct (loop_body_not_save cfg prog_start line rd st E) as (-> & _).
    reflexivity.
Qed.

Lemma proceed_passed_debounce line rd st d :
  branch_of (loop_body cfg prog_start line rd st) = BrSave (Proceed d) ->
  min_gap_ms cfg
  <= wrap_long (ms_since_start prog_start (now rd) - last_ms_since_start st)
  /\ last_ms_since_start (state_of (loop_body cfg prog_start line rd st))
     = ms_since_start prog_start (now rd).
Proof.
  destruct (is_save line) eqn:E.
  - rewrite (loop_body_save cfg prog_start line rd st E).
    destruct (wrap_long (ms_since_start prog_start (now rd) - last_ms_since_start st)
                <? min_gap_ms cfg) eqn:E1.
    { rewrite do_save_debounced by exact E1. discriminate. }
    destruct (0 <? g_children st) eqn:E2.
    { rewrite do_save_busy by assumption. discriminate. }
    rewrite do_save_proceed by assumption.
    destruct (spawn_recorder _ _ _ _ _ _) as [[ret children] eff].
    intros _. apply Z.ltb_ge in E1. split; [exact E1|reflexivity].
  - intros H. destruct (loop_body_not_save cfg prog_start line rd st E) as (_ & _ & Hn).
    exfalso. exact (Hn _ H).
Qed.

Lemma command_loop_last_between lo hi evs st :
  lo <= last_ms_since_start st <= hi ->
  lines_between prog_start lo hi evs ->
  lo <= last_ms_since_start (final (command_loop cfg prog_start evs st)) <= hi.
Proof.
  revert st. induction evs as [|ev evs IH]; intros st Hst Hevs; [exact Hst|].
  inversion Hevs as [|? ? Hev Hevs']; subst.
  destruct ev as [text rd| |n]; cbn [command_loop].
  - destruct (g_stop st =? 0); [|exact Hst].
    pose proof (loop_body_last text rd st) as Hl.
    destruct (loop_body cfg prog_start text rd st) as [[br st1] eff].
    unfold state_of in Hl. simpl in Hl.
    assert (lo <= last_ms_since_start st1 <= hi) as Hst1
      by (destruct Hl as [-> | ->]; assumption).
    destruct br; simpl; try (apply IH; assumption); exact Hst1.
  - apply IH; assumption.
  - apply IH; [|assumption].
    rewrite (proj2 (on_sigchld_fields n st)). exact Hst.
Qed.

End Spacing.

(** X9. Two recordings never start less than [min_gap_ms] apart: when a
    [save] starts one at [ms1] and, after any events whose lines are read
    between [ms1] and [ms2], a [save] at [ms2] passes both gates again,
    then [ms2 - ms1] is at least [min_gap_ms]. *)
Theorem recordings_min_gap_apart cfg prog_start st line1 rd1 d1 mid line2 rd2 d2 :
  branch_of (loop_body cfg prog_start line1 rd1 st) = BrSave (Proceed d1) ->
  0 <= ms_since_start prog_start (now rd1) ->
  lines_between prog_start (ms_since_start prog_start (now rd1))
    (ms_since_start prog_start (now rd2)) mid ->
  branch_of
    (loop_body cfg prog_start line2 rd2
       (final (command_loop cfg prog_start mid
                 (state_of (loop_body cfg prog_start line1 rd1 st)))))
  = BrSave (Proceed d2) ->
  ms_since_start prog_start (now rd1) <= ms_since_start prog_start (now rd2) ->
  min_gap_ms cfg
  <= ms_since_start prog_start (now rd2) - ms_since_start prog_start (now rd1).
Proof.
  intros H1 Hpos Hmid H2 Hle.
  destruct (proceed_passed_debounce cfg prog_start line1 rd1 st d1 H1) as [_ Hlast1].
  destruct (proceed_passed_debounce cfg prog_start line2 rd2 _ d2 H2) as [Hgap _].
  pose proof (command_loop_last_between cfg prog_start
                (ms_since_start prog_start (now rd1))
                (ms_since_start prog_start (now rd2)) mid
                (state_of (loop_body cfg prog_start line1 rd1 st))) as Hb.
  rewrite Hlast1 in Hb. specialize (Hb (conj (Z.le_refl _) Hle) Hmid).
  pose proof (ms_since_start_range prog_start (now rd2)) as Hr.
  rewrite wrap_long_id in Hgap; [lia|].
  unfold in_long in *. unfold LONG_MIN. change (2 ^ 63) with 9223372036854775808 in *.
  unfold LONG_MAX in *. change (2 ^ 63) with 9223372036854775808 in *. lia.
Qed.

Lemma recordings_min_gap_apart_witness :
  min_gap_ms cfg_default
  <= ms_since_start origin (now (at_ms 700)) - ms_since_start origin (now (at_ms 0)).
Proof.
  apply (recordings_min_gap_apart cfg_default origin state_init
           "save" (at_ms 0) 10000
           [Line "save" (at_ms 300); Sigchld 1; Line "status" (at_ms 650)]
           "save 2000" (at_ms 700) 2000).
  - reflexivity.
  - vm_compute. discriminate.
  - unfold lines_between. repeat constructor; vm_compute; discriminate.
  - reflexivity.
  - vm_compute. discriminate.
Defined.

(** ** [ms_since_start] *)

Lemma quot_bound a :
  (0 <= a -> Z.quot a 1000000 * 1000000 <= a < Z.quot a 1000000 * 1000000 + 1000000)
  /\ (a <= 0 -> a <= Z.quot a 1000000 * 1000000 < a + 1000000).
Proof.
  pose proof (Z.quot_rem' a 1000000) as E.
  split; intros H.
  - pose proof (Z.rem_bound_pos_pos a 1000000 ltac:(lia) H). lia.
  - pose proof (Z.rem_bound_pos_neg a 1000000 ltac:(lia) H). lia.
Qed.

(** Without overflow [ms_since_start] is the plain expression. *)
Lemma ms_since_start_plain prog_start t :
  normalised prog_start -> normalised t ->
  0 <= tv_sec t - tv_sec prog_start <= 9000000000000000 ->
  ms_since_start prog_start t
  = (tv_sec t - tv_sec prog_start) * 1000
    + Z.quot (tv_nsec t - tv_nsec prog_start) 1000000.
Proof.
  unfold normalised, ms_since_start. intros Hs Ht Hsec.
  destruct (quot_bound (tv_nsec t - tv_nsec prog_start)) as [Hq1 Hq2].
  assert (-1000 < Z.quot (tv_nsec t - tv_nsec prog_start) 1000000 < 1000) as Hq
    by (destruct (Z_le_gt_dec 0 (tv_nsec t - tv_nsec prog_start)); lia).
  rewrite (wrap_long_id (tv_sec t - tv_sec prog_start)) by (bounds; lia).
  rewrite (wrap_long_id (tv_nsec t - tv_nsec prog_start)) by (bounds; lia).
  rewrite (wrap_long_id ((tv_sec t - tv_sec prog_start) * 1000)) by (bounds; lia).
  apply wrap_long_id. bounds. lia.
Qed.

(** X10. For readings of the clock as [clock_gettime] fills them in, not
    before the start and less than 9 * 10^15 seconds after it,
    [ms_since_start] is never negative and is the elapsed time in whole
    milliseconds, rounded down or, at most, one more. *)
Theorem ms_since_start_accurate prog_start t :
  normalised prog_start -> normalised t ->
  0 <= elapsed_ns prog_start t ->
  tv_sec t - tv_sec prog_start <= 9000000000000000 ->
  0 <= ms_since_start prog_start t
  /\ elapsed_ns prog_start t / 1000000
     <= ms_since_start prog_start t
     <= elapsed_ns prog_start t / 1000000 + 1.
Proof.
  intros Hs Ht He Hsec.
  assert (0 <= tv_sec t - tv_sec prog_start) as Hsec0
    by (unfold normalised, elapsed_ns in *; lia).
  rewrite (ms_since_start_plain prog_start t Hs Ht (conj Hsec0 Hsec)).
  unfold normalised, elapsed_ns in *.
  destruct (quot_bound (tv_nsec t - tv_nsec prog_start)) as [Hq1 Hq2].
  set (q := Z.quot (tv_nsec t - tv_nsec prog_start) 1000000) in *.
  set (ds := tv_sec t - tv_sec prog_start) in *.
  set (dn := tv_nsec t - tv_nsec prog_start) in *.
  assert (ds * 1000000000 + dn - 1000000 < (ds * 1000 + q) * 1000000
          /\ (ds * 1000 + q) * 1000000 < ds * 1000000000 + dn + 1000000) as [Hlo Hhi]
    by (destruct (Z_le_gt_dec 0 dn); lia).
  pose proof (Z.div_mod (ds * 1000000000 + dn) 1000000 ltac:(lia)) as Hd.
  pose proof (Z.mod_pos_bound (ds * 1000000000 + dn) 1000000 ltac:(lia)) as Hm.
  lia.
Qed.

Lemma ms_since_start_accurate_witness :
  (* started at 10.999999999 s, read at 11.000000000 s: one nanosecond
     later, counted as one millisecond *)
  ms_since_start (mk_timespec 10 999999999) (mk_timespec 11 0) = 1
  /\ 0 <= ms_since_start (mk_timespec 10 999999999) (mk_timespec 11 0)
  /\ elapsed_ns (mk_timespec 10 999999999) (mk_timespec 11 0) / 1000000
     <= ms_since_start (mk_timespec 10 999999999) (mk_timespec 11 0)
     <= elapsed_ns (mk_timespec 10 999999999) (mk_timespec 11 0) / 1000000 + 1.
Proof.
  split; [reflexivity|].
  apply (ms_since_start_accurate (mk_timespec 10 999999999) (mk_timespec 11 0));
    unfold normalised, elapsed_ns; simpl; lia.
Defined.

(** X11. [ms_since_start] follows the clock: of two readings as
    [clock_gettime] fills them in, neither more than 9 * 10^15 seconds
    from the start, the later one never gives the smaller number of
    milliseconds. *)
Theorem ms_since_start_monotone prog_start t1 t2 :
  normalised prog_start -> normalised t1 -> normalised t2 ->
  0 <= tv_sec t1 - tv_sec prog_start ->
  tv_sec t2 - tv_sec prog_start <= 9000000000000000 ->
  elapsed_ns prog_start t1 <= elapsed_ns prog_start t2 ->
  ms_since_start prog_start t1 <= ms_since_start prog_start t2.
Proof.
  intros Hs H1 H2 Hlo Hhi Hle.
  assert (tv_sec t1 <= tv_sec t2) as Hsec
    by (unfold normalised, elapsed_ns in *; lia).
  rewrite (ms_since_start_plain prog_start t1 Hs H1) by lia.
  rewrite (ms_since_start_plain prog_start t2 Hs H2) by lia.
  unfold normalised, elapsed_ns in *.
  destruct (quot_bound (tv_nsec t1 - tv_nsec prog_start)) as [Ha1 Ha2].
  destruct (quot_bound (tv_nsec t2 - tv_nsec prog_start)) as [Hb1 Hb2].
  set (q1 := Z.quot (tv_nsec t1 - tv_nsec prog_start) 1000000) in *.
  set (q2 := Z.quot (tv_nsec t2 - tv_nsec prog_start) 1000000) in *.
  destruct (Z_le_gt_dec 0 (tv_nsec t1 - tv_nsec prog_start));
    destruct (Z_le_gt_dec 0 (tv_nsec t2 - tv_nsec prog_start)); lia.
Qed.

Lemma ms_since_start_monotone_witness :
  ms_since_start (mk_timespec 10 999999999) (mk_timespec 10 999999999)
  <= ms_since_start (mk_timespec 10 999999999) (mk_timespec 11 0).
Proof.
  apply ms_since_start_monotone; unfold normalised, elapsed_ns; simpl; lia.
Defined.

(** ** The command line, further *)

Lemma list_pair_ind {A : Type} (P : list A -> Prop) :
  P [] ->
  (forall a, P [a]) ->
  (forall a b l, P l -> P (b :: l) -> P (a :: b :: l)) ->
  forall l, P l.
Proof.
  intros Hnil Hone Hstep l.
  assert (P l /\ forall a, P (a :: l)) as [H _]; [|exact H].
  induction l as [|b l [IH1 IH2]]; split; auto.
Qed.

Lemma parse_args_cons prog a rest cfg :
  parse_args prog (a :: rest) cfg
  = match rest with
    | v :: rest' =>
        if strcmp0 a "--duration" then parse_args prog rest' (set_duration (atoi v) cfg)
        else if strcmp0 a "--outdir" then parse_args prog rest' (set_outdir v cfg)
        else if strcmp0 a "--min-gap" then parse_args prog rest' (set_min_gap (atoi v) cfg)
        else if strcmp0 a "--verbose" then parse_args prog rest (set_verbose true cfg)
        else if strcmp0 a "-h" || strcmp0 a "--help" then inr (0, usage prog cfg)
        else inr (1, Stderr ("Unknown arg: " ++ a ++ nl) :: usage prog cfg)
    | [] =>
        if strcmp0 a "--verbose" then parse_args prog rest (set_verbose true cfg)
        else if strcmp0 a "-h" || strcmp0 a "--help" then inr (0, usage prog cfg)
        else inr (1, Stderr ("Unknown arg: " ++ a ++ nl) :: usage prog cfg)
    end.
Proof. destruct rest; reflexivity. Qed.

Lemma parse_args_keeps prog args :
  forall cfg0 cfg,
    in_int (duration_ms cfg0) -> in_int (min_gap_ms cfg0) ->
    parse_args prog args cfg0 = inl cfg ->
    in_int (duration_ms cfg) /\ in_int (min_gap_ms cfg)
    /\ (out_dir cfg = out_dir cfg0 \/ In (out_dir cfg) args)
    /\ (verbose cfg0 = true -> verbose cfg = true).
Proof.
  induction args as [|a|a v rest IH1 IH2] using list_pair_ind; intros cfg0 cfg Hd Hg.
  - simpl. intros H. injection H as <-. auto.
  - rewrite parse_args_cons.
    destruct (strcmp0 a "--verbose").
    + simpl. intros H. injection H as <-. simpl. auto.
    + destruct (strcmp0 a "-h" || strcmp0 a "--help"); discriminate.
  - rewrite parse_args_cons.
    destruct (strcmp0 a "--duration").
    { intros H. apply IH1 in H; [|apply wrap_int_range|exact Hg].
      simpl in *. intuition. }
    destruct (strcmp0 a "--outdir").
    { intros H. apply IH1 in H; [|exact Hd|exact Hg].
      simpl in *. intuition. }
    destruct (strcmp0 a "--min-gap").
    { intros H. apply IH1 in H; [|exact Hd|apply wrap_int_range].
      simpl in *. intuition. }
    destruct (strcmp0 a "--verbose").
    { intros H. apply IH2 in H; [|exact Hd|exact Hg].
      simpl in *. intuition. }
    destruct (strcmp0 a "-h" || strcmp0 a "--help"); discriminate.
Qed.

(** X12. Whatever the arguments, a configuration that comes out of the
    option parsing has a default duration and a minimum gap within the
    range of [int], and its output directory is the built-in default or
    one of the arguments. *)
Theorem parsed_config_in_range prog args cfg :
  parse_args prog args cfg_default = inl cfg ->
  in_int (duration_ms cfg) /\ in_int (min_gap_ms cfg)
  /\ (out_dir cfg = "/mnt/ssd/clips" \/ In (out_dir cfg) args).
Proof.
  intros H.
  destruct (parse_args_keeps prog args cfg_default cfg) as (H1 & H2 & H3 & _);
    [vm_compute; split; discriminate | vm_compute; split; discriminate | exact H |].
  auto.
Qed.

Lemma parsed_config_in_range_witness :
  exists cfg,
    parse_args "cam_trigger" ["--duration"; "99999999999"; "--outdir"; "/tmp/x"] cfg_default
    = inl cfg
    /\ duration_ms cfg = 1215752191
    /\ in_int (duration_ms cfg) /\ in_int (min_gap_ms cfg)
    /\ (out_dir cfg = "/mnt/ssd/clips"
        \/ In (out_dir cfg) ["--duration"; "99999999999"; "--outdir"; "/tmp/x"]).
Proof.
  eexists. split; [reflexivity|]. split; [reflexivity|].
  apply (parsed_config_in_range "cam_trigger"
           ["--duration"; "99999999999"; "--outdir"; "/tmp/x"]).
  reflexivity.
Defined.

(** X13. Options are applied from left to right and the last one wins:
    after well-formed options, one more [--duration], [--min-gap],
    [--outdir] or [--verbose] changes its own field of the configuration
    the options before it gave, and nothing else. *)
Theorem last_option_wins prog pre v cfg0 :
  options pre ->
  exists cfg,
    parse_args prog pre cfg0 = inl cfg
    /\ parse_args prog (pre ++ ["--duration"; v]) cfg0 = inl (set_duration (atoi v) cfg)
    /\ parse_args prog (pre ++ ["--min-gap"; v]) cfg0 = inl (set_min_gap (atoi v) cfg)
    /\ parse_args prog (pre ++ ["--outdir"; v]) cfg0 = inl (set_outdir v cfg)
    /\ parse_args prog (pre ++ ["--verbose"]) cfg0 = inl (set_verbose true cfg).
Proof.
  intros Hpre.
  destruct (parse_args_options prog pre Hpre cfg0) as (cfg & H1 & H2).
  exists cfg. split; [exact H1|].
  rewrite !H2. repeat split.
Qed.

Lemma last_option_wins_witness :
  parse_args "cam_trigger"
    (["--duration"; "5000"; "--verbose"; "--duration"; "7000"] ++ ["--duration"; "250"])
    cfg_default
  = inl (mk_config 250 "/mnt/ssd/clips" 500 true).
Proof.
  destruct (last_option_wins "cam_trigger"
              ["--duration"; "5000"; "--verbose"; "--duration"; "7000"] "250" cfg_default)
    as (cfg & H1 & H2 & _).
  - repeat constructor.
  - rewrite H2. vm_compute in H1. injection H1 as <-. reflexivity.
Defined.

(** X14. A flag that takes a value, given as the last argument without
    one, is reported as an unknown argument: the program prints
    [Unknown arg], the usage text with the values set so far, and exits
    with code 1 without entering the command loop. *)
Theorem option_without_value prog pre a fs prog_start evs wevs :
  options pre ->
  In a value_flags ->
  exists cfg,
    parse_args prog pre cfg_default = inl cfg
    /\ main (prog :: pre ++ [a]) fs prog_start evs wevs
       = Some (mk_exit 1 state_init
                 (Stderr ("Unknown arg: " ++ a ++ nl) :: usage prog cfg) None).
Proof.
  intros Hpre Ha.
  destruct (parse_args_options prog pre Hpre cfg_default) as (cfg & H1 & H2).
  exists cfg. split; [exact H1|].
  unfold main. cbn [hd tl]. rewrite H2.
  unfold value_flags in Ha. simpl in Ha.
  destruct Ha as [<- | [<- | [<- | []]]]; reflexivity.
Qed.

Lemma option_without_value_witness :
  option_map exit_code
    (main ("cam_trigger" :: ["--verbose"] ++ ["--outdir"]) dir_exists origin
       [Line "save" (at_ms 0)] [])
  = Some 1.
Proof.
  destruct (option_without_value "cam_trigger" ["--verbose"] "--outdir"
              dir_exists origin [Line "save" (at_ms 0)] []) as (cfg & _ & ->).
  - repeat constructor.
  - simpl. tauto.
  - reflexivity.
Defined.

(** ** [main], further *)

Lemma parse_args_exit prog args :
  forall cfg0 code eff,
    parse_args prog args cfg0 = inr (code, eff) ->
    (code = 0 \/ code = 1) /\ spawn_count eff = 0.
Proof.
  induction args as [|a|a v rest IH1 IH2] using list_pair_ind; intros cfg0 code eff.
  - discriminate.
  - rewrite parse_args_cons.
    destruct (strcmp0 a "--verbose"); [discriminate|].
    destruct (strcmp0 a "-h" || strcmp0 a "--help");
      intros H; injection H as <- <-; auto.
  - rewrite parse_args_cons.
    destruct (strcmp0 a "--duration"); [apply IH1|].
    destruct (strcmp0 a "--outdir"); [apply IH1|].
    destruct (strcmp0 a "--min-gap"); [apply IH1|].
    destruct (strcmp0 a "--verbose"); [apply IH2|].
    destruct (strcmp0 a "-h" || strcmp0 a "--help");
      intros H; injection H as <- <-; auto.
Qed.

(** X15. Without a usable output directory the program does not start:
    when the configured path exists but is not a directory, or does not
    exist and cannot be created, [main] writes one error line naming the
    path and returns 1; no line of the input is read and nothing is
    spawned. *)
Theorem main_needs_directory argv fs prog_start evs wevs cfg :
  parse_args (hd "" argv) (tl argv) cfg_default = inl cfg ->
  fs_stat fs = StatNotDir \/ (fs_stat fs = StatFails /\ fs_mkdir_ok fs = false) ->
  main argv fs prog_start evs wevs
  = Some (mk_exit 1 state_init
            [Stderr ("ERROR: cannot create/access outdir '" ++ out_dir cfg ++ "': "
                     ++ (match fs_stat fs with
                         | StatNotDir => "Not a directory"
                         | _ => fs_strerror fs
                         end) ++ nl)]
            None).
Proof.
  intros Hparse Hfs. unfold main. rewrite Hparse.
  unfold ensure_dir, ensure_dir_strerror, logf.
  destruct Hfs as [-> | [-> ->]]; cbn -[String.append nl];
    rewrite !app_assoc_string; reflexivity.
Qed.

Lemma main_needs_directory_witness :
  main ["cam_trigger"; "--outdir"; "/etc/passwd"] (mk_fs StatNotDir true "")
    origin [Line "save" (at_ms 0)] [Waitpid 1]
  = Some (mk_exit 1 state_init
            [Stderr ("ERROR: cannot create/access outdir '/etc/passwd': Not a directory"
                     ++ nl)]
            None).
Proof.
  apply (main_needs_directory ["cam_trigger"; "--outdir"; "/etc/passwd"]
           (mk_fs StatNotDir true "") origin [Line "save" (at_ms 0)] [Waitpid 1]
           (set_outdir "/etc/passwd" cfg_default)).
  - reflexivity.
  - left. reflexivity.
Defined.

(** X16. [main] returns 0 or 1 and nothing else, and when it returns 1 it
    has not entered the command loop: the globals are as at the start and
    no child was spawned. *)
Theorem main_exit_codes argv fs prog_start evs wevs e :
  main argv fs prog_start evs wevs = Some e ->
  (exit_code e = 0 \/ exit_code e = 1)
  /\ (exit_taken e = None -> exit_state e = state_init /\ spawn_count (exit_effects e) = 0)
  /\ (if exit_code e =? 1 then exit_taken e = None else True).
Proof.
  unfold main.
  destruct (parse_args (hd "" argv) (tl argv) cfg_default) as [cfg|[code eff]] eqn:Hp.
  - destruct (ensure_dir fs =? 0).
    + destruct (wait_children wevs _); [|discriminate].
      intros H. injection H as <-. simpl.
      split; [left; reflexivity|]. split; [discriminate|exact I].
    + intros H. injection H as <-. simpl.
      split; [right; reflexivity|]. split; [intros _; split; reflexivity|reflexivity].
  - intros H. injection H as <-. cbn [exit_code exit_taken exit_state exit_effects].
    destruct (parse_args_exit _ _ _ _ _ Hp) as [[-> | ->] Hs]; simpl;
      (split; [auto|]); (split; [intros _; split; [reflexivity|exact Hs]|auto]).
Qed.

Lemma main_exit_codes_witness :
  exists e,
    main ["cam_trigger"; "--fast"] dir_exists origin [Line "save" (at_ms 0)] [] = Some e
    /\ exit_code e = 1 /\ exit_taken e = None.
Proof.
  eexists. split; [reflexivity|].
  pose proof (main_exit_codes ["cam_trigger"; "--fast"] dir_exists origin
                [Line "save" (at_ms 0)] [] _ eq_refl) as (_ & _ & H).
  split; [reflexivity|exact H].
Defined.

(** ** A started recording *)

Lemma append_empty_r s : s ++ "" = s.
Proof. induction s as [|c s IH]; simpl; [reflexivity|]. rewrite IH. reflexivity. Qed.

Lemma substring_length_le n s : (String.length (substring 0 n s) <= n)%nat.
Proof.
  revert s. induction n as [|n IH]; intros s.
  - destruct s; simpl; lia.
  - destruct s as [|c s]; simpl; [lia|]. specialize (IH s). lia.
Qed.

(** X17. When a [save] passes both gates and [fork] succeeds, exactly one
    child is started, with the arguments [rpicam-vid -n -t <ms> -o <path>]:
    [<ms>] is the decided duration in decimal and reads back to it,
    [<path>] is [<outdir>/clip-<timestamp>.mp4] cut to the 511 characters
    of its buffer, and [g_children] is 1 afterwards. *)
Theorem spawn_hands_over_duration cfg prog_start st line rd pid d :
  reachable cfg prog_start st ->
  in_int (duration_ms cfg) ->
  forked rd = ForkParent pid ->
  branch_of (loop_body cfg prog_start line rd st) = BrSave (Proceed d) ->
  let path := substring 0 511 (out_dir cfg ++ "/clip-" ++ wall rd ++ ".mp4") in
  effects_of (loop_body cfg prog_start line rd st)
  = (Spawn pid ["rpicam-vid"; "-n"; "-t"; string_of_Z d; "-o"; path]
     :: vlogf (verbose cfg) ("spawned recorder pid=" ++ string_of_Z (Z.pos pid)))
  /\ atoi (string_of_Z d) = d
  /\ (String.length path <= 511)%nat
  /\ g_children (state_of (loop_body cfg prog_start line rd st)) = 1.
Proof.
  intros Hreach Hint Hfork Hbr path.
  pose proof (reachable_children_ok _ _ _ Hreach) as Hok. unfold children_ok in Hok.
  destruct (is_save line) eqn:E.
  2:{ destruct (loop_body_not_save cfg prog_start line rd st E) as (_ & _ & Hn).
      exfalso. exact (Hn _ Hbr). }
  revert Hbr. rewrite (loop_body_save cfg prog_start line rd st E).
  destruct (wrap_long (ms_since_start prog_start (now rd) - last_ms_since_start st)
              <? min_gap_ms cfg) eqn:E1.
  { rewrite do_save_debounced by exact E1. discriminate. }
  destruct (0 <? g_children st) eqn:E2.
  { rewrite do_save_busy by assumption. discriminate. }
  rewrite do_save_proceed by assumption.
  apply Z.ltb_ge in E2. assert (g_children st = 0) as Hz by lia.
  unfold spawn_recorder. rewrite Hfork, Hz.
  cbn -[wrap_long ms_since_start save_duration trim string_of_Z substring String.append].
  intros Hbr. injection Hbr as <-.
  split; [rewrite List.app_nil_r; reflexivity|].
  split.
  - rewrite <- (append_empty_r (string_of_Z _)) at 1.
    apply atoi_numeral; [apply save_duration_int, Hint|reflexivity].
  - split; [apply substring_length_le|reflexivity].
Qed.

Lemma spawn_hands_over_duration_witness :
  effects_of (loop_body cfg_default origin "save 2500" (at_ms 0) state_init)
  = [Spawn 1 ["rpicam-vid"; "-n"; "-t"; "2500"; "-o";
              "/mnt/ssd/clips/clip-19700101-000000.mp4"]].
Proof.
  apply (spawn_hands_over_duration cfg_default origin state_init "save 2500"
           (at_ms 0) 1%positive 2500).
  - apply reach_init.
  - vm_compute. split; discriminate.
  - reflexivity.
  - reflexivity.
Defined.

(** ** The handlers, further *)

Lemma reap_on_sigint st : on_sigint (reap st) = reap (on_sigint st).
Proof. unfold reap, on_sigint. simpl. destruct (0 <? g_children st); reflexivity. Qed.

(** X18. The order in which the two handlers run does not matter, and
    neither does how the reaped children are spread over runs of
    [on_sigchld]: reaping [n] and then [m] children is reaping [n + m],
    [on_sigint] before or after [on_sigchld] gives the same state, and a
    second [on_sigint] changes nothing. *)
Theorem handlers_compose n m st :
  on_sigchld (n + m) st = on_sigchld m (on_sigchld n st)
  /\ on_sigint (on_sigchld n st) = on_sigchld n (on_sigint st)
  /\ on_sigint (on_sigint st) = on_sigint st.
Proof.
  split; [|split; [|reflexivity]].
  - revert st. induction n as [|n IH]; intros st; [reflexivity|].
    simpl. apply IH.
  - revert st. induction n as [|n IH]; intros st; [reflexivity|].
    simpl. rewrite IH, reap_on_sigint. reflexivity.
Qed.

(** ** The last wait, further *)

Lemma wait_run_idle wevs st :
  Forall idle_wait wevs -> g_children (wait_run wevs st) = g_children st.
Proof.
  intros H. revert st. induction H as [|ev wevs Hev _ IH]; intros st; [reflexivity|].
  simpl. destruct (0 <? g_children st); [|reflexivity].
  rewrite IH.
  destruct ev as [ret| |n]; simpl in *.
  - apply Z.ltb_ge in Hev. rewrite Hev. reflexivity.
  - reflexivity.
  - subst n. reflexivity.
Qed.

(** X19. The last wait has no way out but the count: while [g_children] is
    positive, [waitpid] calls that fail, runs of [on_sigint] and runs of
    [on_sigchld] that find no child leave [main] in the loop, however
    many of them there are. *)
Theorem wait_has_no_timeout argv fs prog_start evs wevs cfg :
  parse_args (hd "" argv) (tl argv) cfg_default = inl cfg ->
  ensure_dir fs = 0 ->
  0 < g_children (final (command_loop cfg prog_start evs state_init)) ->
  Forall idle_wait wevs ->
  main argv fs prog_start evs wevs = None.
Proof.
  intros Hparse Hdir Hpos Hidle.
  unfold main. rewrite Hparse, Hdir. simpl (0 =? 0).
  rewrite wait_children_run, (wait_run_idle wevs _ Hidle).
  apply Z.ltb_lt in Hpos. rewrite Hpos. reflexivity.
Qed.

Lemma wait_has_no_timeout_witness :
  main ["cam_trigger"] dir_exists origin [Line "save" (at_ms 0); Line "quit" (at_ms 5)]
    [WSigint; Waitpid (-1); WSigchld 0; WSigint; Waitpid 0]
  = None.
Proof.
  apply (wait_has_no_timeout ["cam_trigger"] dir_exists origin
           [Line "save" (at_ms 0); Line "quit" (at_ms 5)]
           [WSigint; Waitpid (-1); WSigchld 0; WSigint; Waitpid 0] cfg_default).
  - reflexivity.
  - reflexivity.
  - reflexivity.
  - repeat constructor; simpl; lia.
Defined.

(** ** [status] *)

Lemma status_prefix cmd :
  strncmp0 cmd "status" 6 = true -> exists rest, cmd = "status" ++ rest.
Proof.
  unfold strncmp0. intros H. apply String.eqb_eq in H.
  destruct cmd as [|c1 [|c2 [|c3 [|c4 [|c5 [|c6 rest]]]]]]; simpl in H; try discriminate.
  injection H as E1 E2 E3 E4 E5 E6 _. subst c1 c2 c3 c4 c5 c6. exists rest. reflexivity.
Qed.

Lemma loop_body_status cfg prog_start line rd st :
  strncmp0 (trim (c_str line)) "status" 6 = true ->
  loop_body cfg prog_start line rd st
  = (BrStatus, st,
     logf ("Status: " ++ (if 0 <? g_children st then "recording" else "idle"))).
Proof.
  unfold loop_body. intros H.
  destruct (status_prefix _ H) as [rest ->].
  destruct rest; reflexivity.
Qed.

(** X20. [status] reports the count: it answers [idle] in a state from
    which a [save] passes both gates, [recording] in the state in which
    that iteration ends when its [fork] succeeded (the count has been
    incremented), and [idle] again in the state a run of [on_sigchld]
    that reaps a child leaves when it takes place after that iteration;
    it never changes the state.  (A run of the handler that reaps the
    child before the count is incremented is not such a run.) *)
Theorem status_follows_recording cfg prog_start st line rd pid d sline srd n :
  reachable cfg prog_start st ->
  forked rd = ForkParent pid ->
  branch_of (loop_body cfg prog_start line rd st) = BrSave (Proceed d) ->
  strncmp0 (trim (c_str sline)) "status" 6 = true ->
  let st1 := state_of (loop_body cfg prog_start line rd st) in
  loop_body cfg prog_start sline srd st = (BrStatus, st, logf "Status: idle")
  /\ loop_body cfg prog_start sline srd st1 = (BrStatus, st1, logf "Status: recording")
  /\ loop_body cfg prog_start sline srd (on_sigchld (S n) st1)
     = (BrStatus, on_sigchld (S n) st1, logf "Status: idle").
Proof.
  intros Hreach Hfork Hbr Hstatus st1.
  pose proof (reachable_children_ok _ _ _ Hreach) as Hok.
  pose proof (loop_body_spawns cfg prog_start line rd st Hok) as Hs.
  pose proof (children_ok_loop_body cfg prog_start line rd st Hok) as Hok1.
  fold st1 in Hs, Hok1.
  assert (g_children st = 0 /\ g_children st1 = 1) as [Hz Hone].
  { destruct (is_save line) eqn:E.
    2:{ destruct (loop_body_not_save cfg prog_start line rd st E) as (_ & _ & Hn).
        exfalso. exact (Hn _ Hbr). }
    unfold st1 in *. revert Hbr Hs Hok1.
    rewrite (loop_body_save cfg prog_start line rd st E).
    destruct (wrap_long (ms_since_start prog_start (now rd) - last_ms_since_start st)
                <? min_gap_ms cfg) eqn:E1.
    { rewrite do_save_debounced by exact E1. discriminate. }
    destruct (0 <? g_children st) eqn:E2.
    { rewrite do_save_busy by assumption. discriminate. }
    rewrite do_save_proceed by assumption.
    apply Z.ltb_ge in E2. unfold children_ok in Hok.
    assert (g_children st = 0) as Hz by lia.
    unfold spawn_recorder. rewrite Hfork, Hz. intros _ _ _. split; reflexivity. }
  rewrite !(loop_body_status _ _ _ _ _ Hstatus).
  rewrite Hz, Hone.
  rewrite (on_sigchld_children (S n) st1 Hok1), Hone.
  replace (Z.max 0 (1 - Z.of_nat (S n))) with 0 by lia.
  repeat split.
Qed.

Lemma status_follows_recording_witness :
  effects_of (loop_body cfg_default origin "status" (at_ms 1) recording)
  = [Stderr ("Status: recording" ++ nl)]
  /\ effects_of (loop_body cfg_default origin "statusreport" (at_ms 1)
                   (on_sigchld 1 recording))
     = [Stderr ("Status: idle" ++ nl)].
Proof.
  split.
  - pose proof (status_follows_recording cfg_default origin state_init "save" (at_ms 0)
                  1%positive 10000 "status" (at_ms 1) 0 (reach_init _ _)
                  eq_refl eq_refl eq_refl) as (_ & H & _).
    unfold recording. rewrite H. reflexivity.
  - pose proof (status_follows_recording cfg_default origin state_init "save" (at_ms 0)
                  1%positive 10000 "statusreport" (at_ms 1) 0 (reach_init _ _)
                  eq_refl eq_refl eq_refl) as (_ & _ & H).
    unfold recording. rewrite H. reflexivity.
Defined.

(** ** Rejections *)

(** X21. A [save] that is rejected, by either gate, writes nothing unless
    [--verbose] was given, and then exactly one line. *)
Theorem rejection_is_quiet cfg prog_start st line rd :
  is_save line = true ->
  branch_of (loop_body cfg prog_start line rd st) = BrSave Debounced
  \/ branch_of (loop_body cfg prog_start line rd st) = BrSave Busy ->
  if verbose cfg
  then exists text, effects_of (loop_body cfg prog_start line rd st) = [Stderr text]
  else effects_of (loop_body cfg prog_start line rd st) = [].
Proof.
  intros Hsave. rewrite (loop_body_save cfg prog_start line rd st Hsave).
  destruct (wrap_long (ms_since_start prog_start (now rd) - last_ms_since_start st)
              <? min_gap_ms cfg) eqn:E1.
  { rewrite do_save_debounced by exact E1. intros _.
    unfold effects_of, vlogf. simpl. destruct (verbose cfg); [eexists|]; reflexivity. }
  destruct (0 <? g_children st) eqn:E2.
  { rewrite do_save_busy by assumption. intros _.
    unfold effects_of, vlogf. simpl. destruct (verbose cfg); [eexists|]; reflexivity. }
  rewrite do_save_proceed by assumption.
  destruct (spawn_recorder _ _ _ _ _ _) as [[ret children] eff].
  intros [H|H]; discriminate H.
Qed.

Lemma rejection_is_quiet_witness :
  effects_of (loop_body cfg_default origin "save" (at_ms 100) recording) = []
  /\ exists text,
       effects_of (loop_body (set_verbose true cfg_default) origin "save" (at_ms 900)
                     recording) = [Stderr text].
Proof.
  split.
  - apply (rejection_is_quiet cfg_default origin recording "save" (at_ms 100));
      [reflexivity | left; reflexivity].
  - apply (rejection_is_quiet (set_verbose true cfg_default) origin recording "save"
             (at_ms 900)); [reflexivity | right; reflexivity].
Defined.

(** X22. A [save] answered [Busy] restarts the debounce window: when it
    arrived at [ms1], a [save] less than [min_gap_ms] after [ms1] is
    answered [Debounced], even when the recording has ended in between
    and nothing is running any more. *)
Theorem busy_restarts_window cfg prog_start st line1 rd1 n line2 rd2 :
  is_save line1 = true ->
  branch_of (loop_body cfg prog_start line1 rd1 st) = BrSave Busy ->
  is_save line2 = true ->
  0 <= ms_since_start prog_start (now rd2) - ms_since_start prog_start (now rd1)
    < min_gap_ms cfg ->
  loop_body cfg prog_start line2 rd2
    (on_sigchld n (state_of (loop_body cfg prog_start line1 rd1 st)))
  = (BrSave Debounced,
     on_sigchld n (state_of (loop_body cfg prog_start line1 rd1 st)),
     vlogf (verbose cfg)
       ("debounce: ignored (gap < " ++ string_of_Z (min_gap_ms cfg) ++ " ms)")).
Proof.
  intros Hs1 Hbusy Hs2 Hgap.
  assert (last_ms_since_start (state_of (loop_body cfg prog_start line1 rd1 st))
          = ms_since_start prog_start (now rd1)) as Hlast.
  { revert Hbusy. rewrite (loop_body_save cfg prog_start line1 rd1 st Hs1).
    destruct (wrap_long (ms_since_start prog_start (now rd1) - last_ms_since_start st)
                <? min_gap_ms cfg) eqn:E1.
    { rewrite do_save_debounced by exact E1. discriminate. }
    destruct (0 <? g_children st) eqn:E2.
    { rewrite do_save_busy by assumption. reflexivity. }
    rewrite do_save_proceed by assumption.
    destruct (spawn_recorder _ _ _ _ _ _) as [[ret children] eff]. discriminate. }
  rewrite (loop_body_save cfg prog_start line2 rd2 _ Hs2).
  apply do_save_debounced.
  rewrite (proj2 (on_sigchld_fields n _)), Hlast.
  apply Z.ltb_lt. pose proof (wrap_long_le _ (proj1 Hgap)). lia.
Qed.

Lemma busy_restarts_window_witness :
  branch_of (loop_body cfg_default origin "save" (at_ms 1300)
               (on_sigchld 1
                  (state_of (loop_body cfg_default origin "save" (at_ms 900) recording))))
  = BrSave Debounced.
Proof.
  rewrite (busy_restarts_window cfg_default origin recording "save" (at_ms 900) 1
             "save" (at_ms 1300)).
  - reflexivity.
  - reflexivity.
  - reflexivity.
  - reflexivity.
  - vm_compute. split; [discriminate|reflexivity].
Defined.

(** X23. With a minimum gap of at most 1000000 ms, the default 500
    included, the first line of a run, when it is a [save], is accepted
    whenever it arrives: the start value of [last_ms_since_start] lets it
    through the debounce test and no recording is counted yet. *)
Theorem first_save_accepted cfg prog_start line rd evs :
  is_save line = true ->
  min_gap_ms cfg <= 1000000 ->
  0 <= ms_since_start prog_start (now rd) <= LONG_MAX - 1000000 ->
  exists rest,
    taken (command_loop cfg prog_start (Line line rd :: evs) state_init)
    = BrSave (Proceed (save_duration cfg (trim (c_str line)))) :: rest.
Proof.
  intros Hsave Hgap Hms.
  pose proof (first_save_passes cfg prog_start line rd Hsave Hgap Hms) as H.
  cbn [command_loop]. change (g_stop state_init =? 0) with true. cbv iota.
  destruct (loop_body cfg prog_start line rd state_init) as [[br st1] eff].
  unfold branch_of in H. simpl in H. subst br.
  eexists. reflexivity.
Qed.

Lemma first_save_accepted_witness :
  exists rest,
    taken (command_loop (set_min_gap 1000000 cfg_default) origin
             [Line "save 300" (at_ms 0); Line "save" (at_ms 5)] state_init)
    = BrSave (Proceed 300) :: rest.
Proof.
  apply (first_save_accepted (set_min_gap 1000000 cfg_default) origin "save 300"
           (at_ms 0) [Line "save" (at_ms 5)]).
  - reflexivity.
  - vm_compute. discriminate.
  - vm_compute. split; discriminate.
Defined.

(** ** A child reaped before it is counted *)



